(** * Ephemeral terminal session gateway (src/server.js)

    A shallow embedding of the token helpers, the session registry, the
    [/getaccess] handler and the WebSocket bridge of [src/server.js],
    with the event handlers written in a small state-and-exception monad
    that logs the calls made on the collaborators (socket, process
    stream, container runtime, HTTP response). *)

From Stdlib Require Import ZArith SpecFloat Ascii String List Bool Lia.
From Stdlib.Strings Require Import Byte.
From stdpp Require Import gmap strings list fin_maps.

Set Warnings "-register-all".

Local Open Scope string_scope.
Local Open Scope Z_scope.

(** ** JavaScript values *)

Module Js.

(** A JavaScript number is an IEEE 754 binary64 value. *)
Definition prec : Z := 53.
Definition emax : Z := 1024.

(** What [JSON.parse] can return, together with [undefined], which a
    property read gives for a missing key.  An object is listed by its
    own properties, one entry per key. *)
Inductive Value :=
| Undefined
| Null
| Bool (b : bool)
| Number (x : spec_float)
| Str (s : string)
| Array (items : list Value)
| Object (props : list (string * Value)).

(** ToBoolean, as applied by [||], [&&] and [if]. *)
Definition truthy (v : Value) : bool :=
  match v with
  | Undefined | Null => false
  | Bool b => b
  | Number (S754_zero _) | Number S754_nan => false
  | Number _ => true
  | Str s => negb (String.eqb s "")
  | Array _ | Object _ => true
  end.

(** [a || b] *)
Definition or (a b : Value) : Value := if truthy a then a else b.

Fixpoint assoc (k : string) (props : list (string * Value)) : Value :=
  match props with
  | [] => Undefined
  | (k', v) :: rest => if String.eqb k k' then v else assoc k rest
  end.

(** [v.k]: a TypeError ([None]) on [null] and [undefined], the own
    property of an object, [undefined] for a key that is missing.  The
    keys read by the server are not properties of any prototype. *)
Definition get (v : Value) (k : string) : option Value :=
  match v with
  | Undefined | Null => None
  | Object props => Some (assoc k props)
  | _ => Some Undefined
  end.

(** The number nearest to an integer (round to nearest, ties to even;
    overflow gives Infinity). *)
Definition of_Z (n : Z) : spec_float := binary_normalize prec emax n 0 false.

Definition is_digit (c : ascii) : bool :=
  let n := Z.of_N (N_of_ascii c) in (48 <=? n) && (n <=? 57).

(** The value of a string of decimal digits, read left to right. *)
Fixpoint decimal (acc : Z) (s : string) : option Z :=
  match s with
  | "" => Some acc
  | String c s' =>
      if is_digit c then decimal (10 * acc + (Z.of_N (N_of_ascii c) - 48)) s'
      else None
  end.

(** [Number(s)] on a non-empty string of decimal digits, the only
    strings the server converts; NaN stands for every other string. *)
Definition Number_of (s : string) : spec_float :=
  match s with
  | "" => S754_nan
  | _ => match decimal 0 s with
         | Some n => of_Z n
         | None => S754_nan
         end
  end.

(** [s.startsWith(p)] *)
Definition startsWith (s p : string) : bool := String.prefix p s.

(** [s.includes(p)] *)
Fixpoint includes (s p : string) : bool :=
  String.prefix p s ||
  match s with
  | "" => false
  | String _ s' => includes s' p
  end.

(** The longest prefix of digits of [s], and what follows it. *)
Fixpoint span_digits (s : string) : string * string :=
  match s with
  | "" => ("", "")
  | String c s' =>
      if is_digit c
      then let '(d, rest) := span_digits s' in (String c d, rest)
      else ("", s)
  end.

(** [s.match(/^\d+,\d+$/)], as a test.  A comma is not a digit, so the
    two greedy [\d+] have one way to match. *)
Definition match_digits_comma_digits (s : string) : bool :=
  let '(d1, rest) := span_digits s in
  match d1, rest with
  | String _ _, String c rest' =>
      Ascii.eqb c ","%char &&
      match span_digits rest' with
      | (String _ _, "") => true
      | _ => false
      end
  | _, _ => false
  end.

(** [s.split(',')] *)
Fixpoint split_comma (s : string) : list string :=
  match s with
  | "" => [""]
  | String c s' =>
      if Ascii.eqb c ","%char then "" :: split_comma s'
      else match split_comma s' with
           | [] => [String c ""]
           | p :: ps => String c p :: ps
           end
  end.

End Js.

(** ** Buffers *)

Definition Buffer := list byte.

(** [buf[i]] as a number; [None] is [undefined]. *)
Definition at_ (buf : Buffer) (i : nat) : option Z :=
  (fun b => Z.of_N (Byte.to_N b)) <$> buf !! i.

(** [buf[i] === n] *)
Definition at_is (buf : Buffer) (i : nat) (n : Z) : bool :=
  match at_ buf i with
  | Some v => v =? n
  | None => false
  end.

(** [buf.includes(n)] *)
Definition buf_includes (buf : Buffer) (n : Z) : bool :=
  existsb (fun b => Z.of_N (Byte.to_N b) =? n) buf.

(** [buf.toString('utf-8')].  The text is kept in its UTF-8 form: the
    server only tests it against ASCII characters, which UTF-8 writes as
    the same single byte and nothing else decodes to, and hands it to
    [JSON.parse]. *)
Definition toString (buf : Buffer) : string := string_of_list_byte buf.

Definition Buffer_from (s : string) : Buffer := list_byte_of_string s.

(** ** Token codec *)

(** The payload signed by [generateToken]. *)
Record Claims := {
  containerName : string;
  sessionId : string;
  type : string
}.

(** What [jwt.verify] returns: the payload with the issue and expiry
    times (seconds) that [jwt.sign] added. *)
Record Decoded := {
  claims : Claims;
  iat : Z;
  exp : Z
}.

(** Tokens are modelled symbolically: a string is either the compact
    serialisation of a JSON Web Signature made under some key, or a
    string that is no such thing.  A signature is taken to verify under
    the key that made it and under no other. *)
Inductive Token :=
| Opaque (s : string)
| Jws (key : string) (payload : Claims) (issued expires : Z).

Inductive JwtError :=
| JsonWebTokenError (message : string)
| TokenExpiredError.

Module jwt.

(** [jwt.sign(payload, secret, {expiresIn})] at clock reading [now]
    (milliseconds); [expiresIn] is in seconds. *)
Definition sign (payload : Claims) (secret : string) (expiresIn : Z) (now : Z)
  : Token :=
  let timestamp := now / 1000 in
  Jws secret payload timestamp (timestamp + expiresIn).

(** [jwt.verify(token, secret)] at clock reading [now]: the decoded
    payload, or the error it throws. *)
Definition verify (token : Token) (secret : string) (now : Z)
  : Decoded + JwtError :=
  match token with
  | Opaque _ => inr (JsonWebTokenError "jwt malformed")
  | Jws key payload issued expires =>
      if negb (String.eqb key secret)
      then inr (JsonWebTokenError "invalid signature")
      else if expires <=? now / 1000
      then inr TokenExpiredError
      else inl {| claims := payload; iat := issued; exp := expires |}
  end.

End jwt.

(** ** Data model *)

(** Configuration read from the environment at start-up. [TOKEN_EXPIRY]
    is held in seconds (the default ['5m'] is 300). *)
Record Config := {
  JWT_SECRET : string;
  TOKEN_EXPIRY : Z
}.

(** The values of [activeSessions]. *)
Record Session := {
  s_containerName : string;
  containerId : string;
  createdAt : Z
}.

(** An entry of [docker.listContainers({all: true})]. *)
Record ContainerInfo := {
  Id : string;
  Names : list string;
  State : string
}.

Inductive ReadyState := CONNECTING | OPEN | CLOSING | CLOSED.

(** What the connection handler has set up for a socket: it is awaiting
    the exec stream, or it has registered the stream and socket
    handlers (with whether [stream.end()] was called), or it has
    registered none. *)
Inductive Bridge :=
| Attaching (sid : string)
| Streaming (sid : string) (ended : bool)
| Detached.

Record Socket := {
  readyState : ReadyState;
  bridge : Bridge
}.

Record Server := {
  activeSessions : gmap string Session;
  sockets : gmap nat Socket
}.

(** A text frame sent to the client: [JSON.stringify({error})], or the
    base64 text of a chunk of output. *)
Inductive Frame :=
| ErrorFrame (error : string)
| OutputFrame (chunk : Buffer).

(** The [data] object of a successful [/getaccess] response; its [url]
    and [expiresIn] fields repeat the token and the configuration. *)
Record Access := {
  a_token : Token;
  a_sessionId : string;
  a_containerName : string;
  a_containerId : string
}.

Inductive Response :=
| Success (data : Access)
| Failure (status : Z) (error : string).

(** Calls made on the collaborators, in order; of the registry, the
    [activeSessions.delete(sessionId)] of a socket's close handler is
    logged as [FxDelete], the deletions of the sweep loop are not. *)
Inductive Effect :=
| FxSend (ws : nat) (frame : Frame)
| FxClose (ws : nat)
| FxExec (ws : nat) (container : string)
| FxResize (ws : nat) (h w : Js.Value)
| FxWrite (ws : nat) (chunk : Buffer)
| FxEnd (ws : nat)
| FxDelete (sid : string)
| FxRespond (res : Response).

(** ** The handler monad: server state, logged calls, exceptions *)

Inductive Res (A : Type) :=
| Ok (a : A) (s : Server) (fx : list Effect)
| Throw (message : string) (s : Server) (fx : list Effect).
Arguments Ok {A} a s fx.
Arguments Throw {A} message s fx.

Definition M (A : Type) : Type := Server -> Res A.

#[export] Instance M_ret : MRet M := fun A a s => Ok a s [].

#[export] Instance M_bind : MBind M := fun A B f m s =>
  match m s with
  | Ok a s1 fx1 =>
      match f a s1 with
      | Ok b s2 fx2 => Ok b s2 (fx1 ++ fx2)
      | Throw e s2 fx2 => Throw e s2 (fx1 ++ fx2)
      end
  | Throw e s1 fx1 => Throw e s1 fx1
  end.

Definition throw {A} (message : string) : M A := fun s => Throw message s [].

(** [try { m } catch (error) { h(error.message) }] *)
Definition try_catch {A} (m : M A) (h : string -> M A) : M A := fun s =>
  match m s with
  | Ok a s1 fx1 => Ok a s1 fx1
  | Throw e s1 fx1 =>
      match h e s1 with
      | Ok a s2 fx2 => Ok a s2 (fx1 ++ fx2)
      | Throw e' s2 fx2 => Throw e' s2 (fx1 ++ fx2)
      end
  end.

Definition emit (e : Effect) : M unit := fun s => Ok tt s [e].

Definition gets {A} (f : Server -> A) : M A := fun s => Ok (f s) s [].

Definition modify (f : Server -> Server) : M unit := fun s => Ok tt (f s) [].

Definition set_sessions (f : gmap string Session -> gmap string Session)
  (s : Server) : Server :=
  {| activeSessions := f (activeSessions s); sockets := sockets s |}.

Definition set_socket (ws : nat) (f : Socket -> Socket) (s : Server) : Server :=
  {| activeSessions := activeSessions s; sockets := alter f ws (sockets s) |}.

Definition with_readyState (r : ReadyState) (c : Socket) : Socket :=
  {| readyState := r; bridge := bridge c |}.

Definition with_bridge (b : Bridge) (c : Socket) : Socket :=
  {| readyState := readyState c; bridge := b |}.

(** *** The session registry, a [Map] *)

Definition sessions_get (sid : string) : M (option Session) :=
  gets (fun s => activeSessions s !! sid).

Definition sessions_set (sid : string) (v : Session) : M unit :=
  modify (set_sessions (insert sid v)).

Definition sessions_delete (sid : string) : M unit :=
  emit (FxDelete sid);; modify (set_sessions (delete sid)).

(** *** The socket *)

(** The record of a socket; one the server has not seen reads as closed,
    with no handler on it. *)
Definition socket_of (s : Server) (ws : nat) : Socket :=
  match sockets s !! ws with
  | Some c => c
  | None => {| readyState := CLOSED; bridge := Detached |}
  end.

(** [ws.readyState] *)
Definition ws_readyState (ws : nat) : M ReadyState :=
  gets (fun s => readyState (socket_of s ws)).

(** [ws.send(frame)], which is only sure not to throw on an open
    socket. *)
Definition ws_send (ws : nat) (frame : Frame) : M unit :=
  r ← ws_readyState ws;
  match r with
  | OPEN => emit (FxSend ws frame)
  | _ => throw "WebSocket is not open"
  end.

(** [ws.close()]: starts the closing handshake of an open socket. *)
Definition ws_close (ws : nat) : M unit :=
  r ← ws_readyState ws;
  emit (FxClose ws);;
  match r with
  | OPEN => modify (set_socket ws (with_readyState CLOSING))
  | _ => mret tt
  end.

(** *** The process stream *)

(** [stream.end()] *)
Definition stream_end (ws : nat) : M unit :=
  emit (FxEnd ws);;
  modify (set_socket ws (fun c =>
    match bridge c with
    | Streaming sid _ => with_bridge (Streaming sid true) c
    | _ => c
    end)).

(** ** The server *)

Section Gateway.

Context (cfg : Config).

(** [JSON.parse] of a text, [None] when it throws a SyntaxError. *)
Context (JSON_parse : string -> option Js.Value).

(** *** Token helpers *)

Definition generateToken (containerName sessionId : string) (now : Z) : Token :=
  jwt.sign
    {| containerName := containerName;
       sessionId := sessionId;
       type := "terminal-access" |}
    (JWT_SECRET cfg) (TOKEN_EXPIRY cfg) now.

Definition verifyToken (token : Token) (now : Z) : option Decoded :=
  match jwt.verify token (JWT_SECRET cfg) now with
  | inl decoded => Some decoded
  | inr error => None
  end.

(** *** GET /getaccess *)

(** The predicate given to [containers.find]. *)
Definition matches (containerName : string) (c : ContainerInfo) : bool :=
  existsb (fun name => Js.includes name containerName) (Names c)
  || Js.startsWith (Id c) containerName.

(** The sweep loop: drops the sessions created before [threshold].  Its
    effect on the map is what is modelled; its [delete] calls are not
    logged. *)
Definition sessions_sweep (threshold : Z) : M unit :=
  modify (set_sessions
            (filter (fun entry : string * Session => ¬ (createdAt entry.2 < threshold)))).

Definition quoted (containerName : string) : string :=
  String.append "Container '" (String.append containerName "'").

(** The three refusals of the handler: 400, 404 and 400. *)
Definition InvalidRequest : Response :=
  Failure 400 "containerName is required as query parameter".

Definition NotFound (containerName : string) : Response :=
  Failure 404 (String.append (quoted containerName) " not found").

Definition NotRunning (containerName state : string) : Response :=
  Failure 400
    (String.append (quoted containerName)
       (String.append " is not running (state: " (String.append state ")"))).

(** The handler, after the API key check.  [listing] is what
    [docker.listContainers] resolves to or the message it rejects with,
    [uuid] what [uuidv4()] returns, and [t_sign], [t_set], [t_sweep] the
    clock readings (milliseconds) taken by [jwt.sign] and by the two
    [Date.now()]. *)
Definition getaccess (containerName : option string)
  (listing : list ContainerInfo + string) (uuid : string)
  (t_sign t_set t_sweep : Z) : M unit :=
  try_catch
    (match containerName with
     | None | Some "" =>
         emit (FxRespond InvalidRequest)
     | Some containerName =>
         containers ← match listing with
                      | inl containers => mret containers
                      | inr message => throw message
                      end;
         match List.find (matches containerName) containers with
         | None =>
             emit (FxRespond (NotFound containerName))
         | Some container =>
             if negb (String.eqb (State container) "running")
             then emit (FxRespond (NotRunning containerName (State container)))
             else
               let sessionId := uuid in
               let token := generateToken containerName sessionId t_sign in
               sessions_set sessionId
                 {| s_containerName := containerName;
                    containerId := Id container;
                    createdAt := t_set |};;
               let tenMinutesAgo := t_sweep - 10 * 60 * 1000 in
               sessions_sweep tenMinutesAgo;;
               emit (FxRespond (Success
                 {| a_token := token;
                    a_sessionId := sessionId;
                    a_containerName := containerName;
                    a_containerId := Id container |}))
         end
     end)
    (fun message => emit (FxRespond (Failure 500 message))).

(** *** The inbound demultiplexer *)

(** The ways the message handler can leave a decoded frame. *)
Inductive Outcome :=
| DiscardCorruption
| DiscardHighByte
| DiscardEscape
| ResizeNumeric (cols rows : Js.Value)
| ResizeStructured (cols rows : Js.Value)
| ForwardRaw (decoded : Buffer).

(** [v.k1 || v.k2 || v.k3]; [None] when a read throws. *)
Definition first_of (v : Js.Value) (k1 k2 k3 : string) : option Js.Value :=
  a ← Js.get v k1;
  if Js.truthy a then Some a else
  b ← Js.get v k2;
  if Js.truthy b then Some b else
  Js.get v k3.

(** The JSON branch: the two dimensions [(cols, rows)] when it issues a
    resize, [None] when it is left for the raw input. *)
Definition json_resize (text : string) : option (Js.Value * Js.Value) :=
  if Js.startsWith text "{" && (Js.includes text "Width" || Js.includes text "height")
  then
    resizeData ← JSON_parse text;
    rows ← first_of resizeData "Height" "height" "h";
    cols ← first_of resizeData "Width" "width" "w";
    if Js.truthy rows && Js.truthy cols then Some (cols, rows) else None
  else None.

Definition is_corruption (decoded : Buffer) : bool :=
  (4 <=? Z.of_nat (length decoded))
  && at_is decoded 0 0xCD
  && at_is decoded 1 0xE4
  && at_is decoded 2 0xD3
  && at_is decoded 3 0x63.

Definition is_high_byte (decoded : Buffer) : bool :=
  (Z.of_nat (length decoded) <? 50) && (0 <? Z.of_nat (length decoded))
  && match at_ decoded 0 with
     | Some firstByte => 0x7F <? firstByte
     | None => false
     end.

Definition hasControlSeq (decoded : Buffer) : bool :=
  buf_includes decoded 0x1b && buf_includes decoded 0x5d.

Definition demux (decoded : Buffer) : Outcome :=
  if is_corruption decoded then DiscardCorruption
  else if is_high_byte decoded then DiscardHighByte
  else if hasControlSeq decoded then DiscardEscape
  else
    let text := toString decoded in
    if Js.match_digits_comma_digits text then
      let parts := map (fun p => Js.Number (Js.Number_of p)) (Js.split_comma text) in
      ResizeNumeric (nth 0 parts Js.Undefined) (nth 1 parts Js.Undefined)
    else
      match json_resize text with
      | Some (cols, rows) => ResizeStructured cols rows
      | None => ForwardRaw decoded
      end.

(** [ws.on('message')], on the frame with its base64 layer removed. *)
Definition on_message (ws : nat) (decoded : Buffer) : M unit :=
  try_catch
    (match demux decoded with
     | DiscardCorruption | DiscardHighByte | DiscardEscape => mret tt
     | ResizeNumeric cols rows | ResizeStructured cols rows =>
         emit (FxResize ws rows cols)
     | ForwardRaw decoded => emit (FxWrite ws decoded)
     end)
    (fun _ => mret tt).

(** *** The connection handler and the bridge *)

Definition reject (ws : nat) (error : string) : M unit :=
  ws_send ws (ErrorFrame error);; ws_close ws.

(** [!token] *)
Definition no_token (token : option Token) : bool :=
  match token with
  | None | Some (Opaque "") => true
  | Some _ => false
  end.

(** [wss.on('connection')] up to its first [await]: the token and
    session checks, then the exec request on the session's container. *)
Definition on_connection (ws : nat) (token : option Token) (now : Z) : M unit :=
  match token with
  | None | Some (Opaque "") => reject ws "No token provided"
  | Some token =>
      match verifyToken token now with
      | None => reject ws "Invalid or expired token"
      | Some decoded =>
          let sessionId := sessionId (claims decoded) in
          sessionInfo ← sessions_get sessionId;
          match sessionInfo with
          | None => reject ws "Session not found or expired"
          | Some sessionInfo =>
              emit (FxExec ws (containerId sessionInfo));;
              modify (set_socket ws (with_bridge (Attaching sessionId)))
          end
      end
  end.

(** The rest of the [try] block, once [exec.start] has resolved: the
    handlers of the stream and of the socket are registered. *)
Definition on_exec_started (ws : nat) (sessionId : string) : M unit :=
  modify (set_socket ws (with_bridge (Streaming sessionId false))).

(** The [catch] block, when the exec could not be created or started. *)
Definition on_exec_failed (ws : nat) (message : string) : M unit :=
  modify (set_socket ws (with_bridge Detached));;
  r ← ws_readyState ws;
  match r with
  | OPEN => reject ws message
  | _ => mret tt
  end.

(** [stream.on('data')] *)
Definition on_stream_data (ws : nat) (chunk : Buffer) : M unit :=
  r ← ws_readyState ws;
  match r with
  | OPEN => try_catch (ws_send ws (OutputFrame chunk)) (fun _ => mret tt)
  | _ => mret tt
  end.

(** [stream.on('end')] *)
Definition on_stream_end (ws : nat) : M unit :=
  r ← ws_readyState ws;
  match r with
  | OPEN => ws_close ws
  | _ => mret tt
  end.

(** [ws.on('close')] *)
Definition on_ws_close (ws : nat) (sessionId : string) : M unit :=
  stream_end ws;;
  sessions_delete sessionId.

(** [stream.on('error')] *)
Definition on_stream_error (ws : nat) (message : string) : M unit :=
  r ← ws_readyState ws;
  match r with
  | OPEN => reject ws message
  | _ => mret tt
  end.

(** [ws.on('error')] *)
Definition on_ws_error (ws : nat) : M unit :=
  stream_end ws.

(** *** The event loop *)

(** What reaches the server.  Sockets are told apart by a number; an
    event on a socket only runs the handlers registered on it.
    [Connection] is the ['connection'] event of a socket not seen before,
    which is open; [ExecStarted] and [ExecFailed] settle the exec it
    awaits; [WsClose] is the ['close'] event of a socket, emitted once,
    by which time the socket reads as closed. *)
Inductive Event :=
| GetAccess (containerName : option string)
    (listing : list ContainerInfo + string) (uuid : string)
    (t_sign t_set t_sweep : Z)
| Connection (ws : nat) (token : option Token) (now : Z)
| ExecStarted (ws : nat)
| ExecFailed (ws : nat) (message : string)
| WsMessage (ws : nat) (decoded : Buffer)
| StreamData (ws : nat) (chunk : Buffer)
| StreamEnd (ws : nat)
| StreamError (ws : nat) (message : string)
| WsError (ws : nat)
| WsClose (ws : nat).

Definition bridge_of (s : Server) (ws : nat) : Bridge :=
  bridge (socket_of s ws).

(** Runs [k] with the session id when the bridge handlers are
    registered on [ws]. *)
Definition when_streaming (ws : nat) (k : string -> M unit) : M unit :=
  b ← gets (fun s => bridge_of s ws);
  match b with
  | Streaming sid _ => k sid
  | _ => mret tt
  end.

Definition when_attaching (ws : nat) (k : string -> M unit) : M unit :=
  b ← gets (fun s => bridge_of s ws);
  match b with
  | Attaching sid => k sid
  | _ => mret tt
  end.

Definition handle (e : Event) : M unit :=
  match e with
  | GetAccess containerName listing uuid t_sign t_set t_sweep =>
      getaccess containerName listing uuid t_sign t_set t_sweep
  | Connection ws token now =>
      known ← gets (fun s => sockets s !! ws);
      match known with
      | Some _ => mret tt
      | None =>
          modify (fun s =>
            {| activeSessions := activeSessions s;
               sockets := <[ws := {| readyState := OPEN; bridge := Detached |}]> (sockets s) |});;
          on_connection ws token now
      end
  | ExecStarted ws => when_attaching ws (on_exec_started ws)
  | ExecFailed ws message => when_attaching ws (fun _ => on_exec_failed ws message)
  | WsMessage ws decoded => when_streaming ws (fun _ => on_message ws decoded)
  | StreamData ws chunk => when_streaming ws (fun _ => on_stream_data ws chunk)
  | StreamEnd ws => when_streaming ws (fun _ => on_stream_end ws)
  | StreamError ws message => when_streaming ws (fun _ => on_stream_error ws message)
  | WsError ws => when_streaming ws (fun _ => on_ws_error ws)
  | WsClose ws =>
      r ← ws_readyState ws;
      match r with
      | CLOSED => mret tt
      | _ =>
          modify (set_socket ws (with_readyState CLOSED));;
          when_streaming ws (on_ws_close ws)
      end
  end.

(** The events of a list, handled in order; an exception that leaves a
    handler stops the run. *)
Fixpoint run (events : list Event) : M unit :=
  match events with
  | [] => mret tt
  | e :: events => handle e;; run events
  end.

End Gateway.

(** ** Observations on a run *)

Definition final {A} (r : Res A) : Server :=
  match r with
  | Ok _ s _ | Throw _ s _ => s
  end.

Definition calls {A} (r : Res A) : list Effect :=
  match r with
  | Ok _ _ fx | Throw _ _ fx => fx
  end.

(** The state in which a rejected connection leaves a new socket. *)
Definition rejected (ws : nat) (s : Server) : Server :=
  {| activeSessions := activeSessions s;
     sockets := <[ws := {| readyState := CLOSING; bridge := Detached |}]> (sockets s) |}.

(** An exec requested for socket [ws]. *)
Definition is_exec (ws : nat) (e : Effect) : bool :=
  match e with
  | FxExec ws' _ => Nat.eqb ws' ws
  | _ => false
  end.

(** A call of [activeSessions.delete(sid)]. *)
Definition is_delete (sid : string) (e : Effect) : bool :=
  match e with
  | FxDelete sid' => String.eqb sid' sid
  | _ => false
  end.

Definition deletions (sid : string) (fx : list Effect) : nat :=
  length (List.filter (is_delete sid) fx).






(** A [/getaccess] request whose generated session id is [sid]. *)
Definition issues (sid : string) (e : Event) : bool :=
  match e with
  | GetAccess _ _ uuid _ _ _ => String.eqb uuid sid
  | _ => false
  end.

(** ** The classification rules, as the specification words them *)

Inductive Kind :=
| Corruption
| HighByte
| Escape
| Numeric
| Structured
| Raw.

Definition kind_of (o : Outcome) : Kind :=
  match o with
  | DiscardCorruption => Corruption
  | DiscardHighByte => HighByte
  | DiscardEscape => Escape
  | ResizeNumeric _ _ => Numeric
  | ResizeStructured _ _ => Structured
  | ForwardRaw _ => Raw
  end.

Definition byte_value (b : byte) : Z := Z.of_N (Byte.to_N b).

(** Rule 1: the bytes start with CD E4 D3 63. *)
Definition rule_corruption (b : Buffer) : Prop :=
  take 4 b = [xcd; xe4; xd3; x63].

(** Rule 2: fewer than 50 bytes, the first one above 127. *)
Definition rule_high_byte (b : Buffer) : Prop :=
  (length b < 50)%nat /\ exists first rest, b = first :: rest /\ 127 < byte_value first.

(** Rule 3: both ESC and [ ] ] occur somewhere. *)
Definition rule_escape (b : Buffer) : Prop :=
  x1b ∈ b /\ x5d ∈ b.

(** A non-empty run of decimal digits. *)
Fixpoint all_digits (s : string) : bool :=
  match s with
  | "" => true
  | String c s' => Js.is_digit c && all_digits s'
  end.

Definition digits (s : string) : Prop := s <> "" /\ all_digits s = true.

(** Rule 4: the text is digits, a comma, digits. *)
Definition rule_numeric (b : Buffer) : Prop :=
  exists cols rows, digits cols /\ digits rows /\
    toString b = String.append cols (String "," rows).

(** The spellings of the two dimensions that section 4.4 accepts. *)
Definition width_keys : list string := ["Width"; "width"; "w"].
Definition height_keys : list string := ["Height"; "height"; "h"].

(** The text holds one of the spellings. *)
Definition names_key (text : string) (keys : list string) : Prop :=
  exists k, k ∈ keys /\ Js.includes text k = true.

(** The parsed object gives a dimension: under one of the spellings it
    holds a value that counts as one (0, null, false and the empty string
    do not). *)
Definition gives_dimension (obj : Js.Value) (keys : list string) : Prop :=
  exists k v, k ∈ keys /\ Js.get obj k = Some v /\ Js.truthy v = true.

(** Rule 5, in the words of section 4.4: the text begins with [{] and
    holds a width key and a height key in one of their spellings, it
    parses, and both dimensions are present in the parsed object. *)
Definition rule_structured (JSON_parse : string -> option Js.Value) (b : Buffer) : Prop :=
  let text := toString b in
  Js.startsWith text "{" = true /\
  names_key text width_keys /\ names_key text height_keys /\
  exists obj,
    JSON_parse text = Some obj /\
    gives_dimension obj width_keys /\ gives_dimension obj height_keys.

(** A rule applies to a frame when it matches and none before it does;
    rule 6 takes what is left. *)
Definition applies (JSON_parse : string -> option Js.Value) (k : Kind) (b : Buffer) : Prop :=
  match k with
  | Corruption => rule_corruption b
  | HighByte => ~ rule_corruption b /\ rule_high_byte b
  | Escape => ~ rule_corruption b /\ ~ rule_high_byte b /\ rule_escape b
  | Numeric =>
      ~ rule_corruption b /\ ~ rule_high_byte b /\ ~ rule_escape b /\ rule_numeric b
  | Structured =>
      ~ rule_corruption b /\ ~ rule_high_byte b /\ ~ rule_escape b /\ ~ rule_numeric b
      /\ rule_structured JSON_parse b
  | Raw =>
      ~ rule_corruption b /\ ~ rule_high_byte b /\ ~ rule_escape b /\ ~ rule_numeric b
      /\ ~ rule_structured JSON_parse b
  end.

(** ** Sample data *)

Module Sample.

Definition cfg : Config := {| JWT_SECRET := "secret"; TOKEN_EXPIRY := 300 |}.

(** A configuration whose tokens outlive the ten-minute sweep. *)
Definition cfg_1h : Config := {| JWT_SECRET := "secret"; TOKEN_EXPIRY := 3600 |}.

Definition web : ContainerInfo :=
  {| Id := "abc123"; Names := ["/web"]; State := "running" |}.

Definition db : ContainerInfo :=
  {| Id := "def456"; Names := ["/db"]; State := "exited" |}.

Definition idle : Server := {| activeSessions := ∅; sockets := ∅ |}.

Definition dq : string := String (ascii_of_nat 34) "".

Definition key (k : string) : string := dq +:+ k +:+ dq.

(** The text [{"w":80,"h":24}] *)
Definition text_wh : string :=
  "{" +:+ key "w" +:+ ":80," +:+ key "h" +:+ ":24}".

(** The text [{"Width":80,"Height":24}] *)
Definition text_WidthHeight : string :=
  "{" +:+ key "Width" +:+ ":80," +:+ key "Height" +:+ ":24}".

Definition n80 : Js.Value := Js.Number (Js.of_Z 80).
Definition n24 : Js.Value := Js.Number (Js.of_Z 24).

(** A stand-in for [JSON.parse] that knows the two texts above. *)
Definition parse (text : string) : option Js.Value :=
  if String.eqb text text_wh
  then Some (Js.Object [("w", n80); ("h", n24)])
  else if String.eqb text text_WidthHeight
  then Some (Js.Object [("Width", n80); ("Height", n24)])
  else None.

(** The token issued for session [sid] on a request for [name] at time 0. *)
Definition token_for (name sid : string) : Token := generateToken cfg name sid 0.

(** One request for [web], issued as session [s1] at time 0. *)
Definition issue_s1 : Event := GetAccess (Some "web") (inl [web; db]) "s1" 0 0 0.

(** The server once [s1] is issued. *)
Definition issued : Server := final (handle cfg parse issue_s1 idle).

(** The server once socket 1 has connected with the token of [s1] and
    its exec stream has started. *)
Definition streaming : Server :=
  final (run cfg parse
           [issue_s1; Connection 1 (Some (token_for "web" "s1")) 1000; ExecStarted 1]
           idle).

(** A token of session [s1] whose [containerName] claim names another
    container. *)
Definition token_db_s1 : Token :=
  Jws "secret"
    {| containerName := "db"; sessionId := "s1"; type := "terminal-access" |}
    0 300.

(** With one-hour tokens: [s1] is issued at time 0 and swept by the
    request that issues [s2] 700 seconds later. *)
Definition swept : Server :=
  final (run cfg_1h parse
           [issue_s1; GetAccess (Some "web") (inl [web; db]) "s2" 700000 700000 700000]
           idle).

(** Termination triggers racing on socket 1. *)
Definition races : list Event :=
  [StreamEnd 1; StreamError 1 "read ECONNRESET"; WsError 1; WsClose 1;
   WsClose 1; StreamEnd 1].

End Sample.

(** ** The API key check, the connection URL and the health endpoint *)

Module Str.

(** [s] without its first [n] characters. *)
Fixpoint skip (n : nat) (s : string) : string :=
  match n, s with
  | O, _ => s
  | S _, "" => ""
  | S n, String _ s' => skip n s'
  end.

(** [s.replace(pat, rep)] with a string pattern and a replacement free
    of [$]: the first occurrence of [pat], if any, becomes [rep]. *)
Fixpoint replace (s pat rep : string) : string :=
  if String.prefix pat s
  then String.append rep (skip (String.length pat) s)
  else match s with
       | "" => ""
       | String c s' => String c (replace s' pat rep)
       end.

(** [s.split(sep)] with a separator of one character. *)
Fixpoint split (sep : ascii) (s : string) : list string :=
  match s with
  | "" => [""]
  | String c s' =>
      if Ascii.eqb c sep then "" :: split sep s'
      else match split sep s' with
           | [] => [String c ""]
           | p :: ps => String c p :: ps
           end
  end.

(** [parts.join(sep)] *)
Fixpoint join (sep : ascii) (parts : list string) : string :=
  match parts with
  | [] => ""
  | [p] => p
  | p :: ps => String.append p (String sep (join sep ps))
  end.

(** [a || b] on strings that may be [undefined]. *)
Definition or_else (a b : option string) : option string :=
  match a with
  | Some (String _ _) => a
  | _ => b
  end.

End Str.

(** The rest of the configuration. *)
Record Settings := {
  REQUIRE_AUTH : bool;
  API_KEYS : list string;
  HOST : string;
  PROTOCOL : string
}.

(** [process.env.API_KEYS ? process.env.API_KEYS.split(',') : [...]] *)
Definition API_KEYS_from (env : option string) : list string :=
  match env with
  | None | Some "" => ["default-api-key-change-me"]
  | Some keys => Str.split "," keys
  end.

(** [process.env.REQUIRE_AUTH !== 'false'] *)
Definition REQUIRE_AUTH_from (env : option string) : bool :=
  match env with
  | Some value => negb (String.eqb value "false")
  | None => true
  end.

(** What the handlers read of a request: three headers and the query
    parameter [apiKey] for the key, the query parameter [containerName],
    and the headers a proxy sets.  A header or parameter is a string or
    [undefined]. *)
Record Request := {
  x_api_key : option string;
  authorization : option string;
  q_apiKey : option string;
  q_containerName : option string;
  x_forwarded_proto : option string;
  x_forwarded_host : option string;
  h_host : option string
}.

(** How a middleware ends: [next()], or a response of its own. *)
Inductive Verdict :=
| Next
| Respond (res : Response).

Definition Unauthorized : Response :=
  Failure 401
    "API key is required. Provide via X-API-Key header, Authorization header, or apiKey query parameter".

Definition Forbidden : Response := Failure 403 "Invalid API key".

(** The key a request presents:
    [x-api-key || authorization?.replace('Bearer ', '') || query.apiKey]. *)
Definition presented_key (req : Request) : option string :=
  Str.or_else (x_api_key req)
    (Str.or_else ((fun a => Str.replace a "Bearer " "") <$> authorization req)
       (q_apiKey req)).

Definition authenticateApiKey (st : Settings) (req : Request) : Verdict :=
  if negb (REQUIRE_AUTH st) then Next
  else
    match presented_key req with
    | None | Some "" => Respond Unauthorized
    | Some apiKey =>
        if negb (existsb (String.eqb apiKey) (API_KEYS st))
        then Respond Forbidden
        else Next
    end.

(** [app.get('/getaccess', authenticateApiKey, handler)] *)
Definition route_getaccess (st : Settings) (cfg : Config) (req : Request)
  (listing : list ContainerInfo + string) (uuid : string)
  (t_sign t_set t_sweep : Z) : M unit :=
  match authenticateApiKey st req with
  | Respond res => emit (FxRespond res)
  | Next => getaccess cfg (q_containerName req) listing uuid t_sign t_set t_sweep
  end.

(** [forwardedProto === 'https' ? 'wss' : 'ws'] *)
Definition wsProtocol (st : Settings) (req : Request) : string :=
  let forwardedProto :=
    match x_forwarded_proto req with
    | Some (String _ _ as proto) => proto
    | _ => PROTOCOL st
    end in
  if String.eqb forwardedProto "https" then "wss" else "ws".

(** The port handling: a host that names port 80 or 443 loses it. *)
Definition strip_standard_port (forwardedHost : string) : string :=
  let hostHasPort := Js.includes forwardedHost ":" in
  if hostHasPort then
    match Str.split ":" forwardedHost !! 1%nat with
    | Some port =>
        if String.eqb port "80" || String.eqb port "443"
        then match Str.split ":" forwardedHost !! 0%nat with
             | Some name => name
             | None => forwardedHost
             end
        else forwardedHost
    | None => forwardedHost
    end
  else forwardedHost.

(** [x-forwarded-host || host || HOST], after the port handling. *)
Definition forwardedHost (st : Settings) (req : Request) : string :=
  strip_standard_port
    match Str.or_else (x_forwarded_host req) (h_host req) with
    | Some (String _ _ as name) => name
    | _ => HOST st
    end.

(** The text of [wsUrl] up to the token, which follows it. *)
Definition wsUrl (st : Settings) (req : Request) : string :=
  String.append (wsProtocol st req)
    (String.append "://" (String.append (forwardedHost st req) "/terminal?token=")).

(** The [activeSessions] figure of [GET /health]. *)
Definition health (s : Server) : nat := size (activeSessions s).

(** ** More observations *)

(** A frame sent on socket [ws]. *)
Definition is_send (ws : nat) (e : Effect) : bool :=
  match e with
  | FxSend ws' _ => Nat.eqb ws' ws
  | _ => false
  end.

(** An event of socket [ws] other than its connection. *)
Definition concerns (ws : nat) (e : Event) : bool :=
  match e with
  | ExecStarted ws' | ExecFailed ws' _ | WsMessage ws' _ | StreamData ws' _
  | StreamEnd ws' | StreamError ws' _ | WsError ws' | WsClose ws' => Nat.eqb ws' ws
  | GetAccess _ _ _ _ _ _ | Connection _ _ _ => false
  end.

Definition is_getaccess (e : Event) : bool :=
  match e with
  | GetAccess _ _ _ _ _ _ => true
  | _ => false
  end.

(** The container ids an access request can register satisfy [ok]. *)
Definition grants (ok : string -> Prop) (e : Event) : Prop :=
  match e with
  | GetAccess (Some name) (inl containers) _ _ _ _ =>
      forall c, List.find (matches name) containers = Some c ->
                State c = "running" -> ok (Id c)
  | _ => True
  end.

(** Every container id held by the registry satisfies [ok]. *)
Definition registry_ok (ok : string -> Prop) (s : Server) : Prop :=
  forall sid info, activeSessions s !! sid = Some info -> ok (containerId info).

(** What an event can do to the record of a socket: leave it, start
    its closing handshake, close it (ending the stream when the bridge
    handlers are registered), register the handlers once the exec has
    started, give up the exec, or end the stream. *)
Inductive socket_step : Socket -> Socket -> Prop :=
| step_same c : socket_step c c
| step_closing b :
    socket_step {| readyState := OPEN; bridge := b |}
                {| readyState := CLOSING; bridge := b |}
| step_closed r b :
    r <> CLOSED ->
    socket_step {| readyState := r; bridge := b |}
                {| readyState := CLOSED; bridge := b |}
| step_closed_ended r sid ended :
    r <> CLOSED ->
    socket_step {| readyState := r; bridge := Streaming sid ended |}
                {| readyState := CLOSED; bridge := Streaming sid true |}
| step_started r sid :
    socket_step {| readyState := r; bridge := Attaching sid |}
                {| readyState := r; bridge := Streaming sid false |}
| step_failed r sid :
    socket_step {| readyState := r; bridge := Attaching sid |}
                {| readyState := r; bridge := Detached |}
| step_failed_closing sid :
    socket_step {| readyState := OPEN; bridge := Attaching sid |}
                {| readyState := CLOSING; bridge := Detached |}
| step_ended r sid ended :
    socket_step {| readyState := r; bridge := Streaming sid ended |}
                {| readyState := r; bridge := Streaming sid true |}.

(** The characters of a text all pass a test. *)
Fixpoint text_all (f : ascii -> bool) (text : string) : bool :=
  match text with
  | "" => true
  | String c text' => f c && text_all f text'
  end.

(** A character of a numeric directive: a digit or the comma. *)
Definition digit_or_comma (c : ascii) : bool :=
  let n := Z.of_N (N_of_ascii c) in (44 <=? n) && (n <=? 57).

(** ** More sample data *)

Module Fixture.

Definition settings : Settings :=
  {| REQUIRE_AUTH := true;
     API_KEYS := ["alpha"; "beta"];
     HOST := "localhost";
     PROTOCOL := "wss" |}.

Definition bare : Request :=
  {| x_api_key := None;
     authorization := None;
     q_apiKey := None;
     q_containerName := Some "web";
     x_forwarded_proto := None;
     x_forwarded_host := None;
     h_host := Some "localhost:9443" |}.

(** The right key in the query, a wrong one in the header. *)
Definition shadowed : Request :=
  {| x_api_key := Some "wrong";
     authorization := Some "Bearer alpha";
     q_apiKey := Some "alpha";
     q_containerName := Some "web";
     x_forwarded_proto := None;
     x_forwarded_host := None;
     h_host := Some "localhost:9443" |}.

Definition bearer : Request :=
  {| x_api_key := None;
     authorization := Some "Bearer beta";
     q_apiKey := None;
     q_containerName := Some "web";
     x_forwarded_proto := Some "https";
     x_forwarded_host := Some "gateway.example:443";
     h_host := Some "10.0.0.7:3000" |}.

Definition old : ContainerInfo :=
  {| Id := "0aa111"; Names := ["/web-old"]; State := "exited" |}.

(** Socket 1 has connected with the token of [s1]; its exec is still
    being attached. *)
Definition attaching : Server :=
  final (run Sample.cfg Sample.parse
           [Sample.issue_s1; Connection 1 (Some (Sample.token_for "web" "s1")) 1000]
           Sample.idle).

(** The text [{"Width":0,"Height":24}] *)
Definition text_zero_width : string :=
  "{" +:+ Sample.key "Width" +:+ ":0," +:+ Sample.key "Height" +:+ ":24}".

(** A stand-in for [JSON.parse] that knows that text. *)
Definition parse (text : string) : option Js.Value :=
  if String.eqb text text_zero_width
  then Some (Js.Object [("Width", Js.Number (Js.of_Z 0)); ("Height", Sample.n24)])
  else None.

End Fixture.

(** * Properties *)

(** ** Tactics for running handlers *)

Ltac monad :=
  unfold mbind, mret, M_bind, M_ret, emit, gets, modify, throw, try_catch in *.

Ltac prims :=
  unfold reject, ws_send, ws_close, ws_readyState, stream_end, sessions_get,
    sessions_set, sessions_delete, sessions_sweep in *.

(** ** Bytes and text *)

Lemma byte_value_is (b c : byte) (n : Z) :
  byte_value c = n -> (byte_value b =? n) = true <-> b = c.
Proof.
  intros <-. rewrite Z.eqb_eq. unfold byte_value. split; [|congruence].
  intros H. apply N2Z.inj in H.
  pose proof (Byte.of_to_N b) as Hb. rewrite H, Byte.of_to_N in Hb. congruence.
Qed.

Lemma buf_includes_elem (buf : Buffer) (c : byte) :
  buf_includes buf (byte_value c) = true <-> c ∈ buf.
Proof.
  unfold buf_includes. rewrite existsb_exists. split.
  - intros (b & Hin & Hb). apply (byte_value_is b c) in Hb; [|done].
    subst. by apply list_elem_of_In.
  - intros Hin. exists c. split; [by apply list_elem_of_In|]. apply Z.eqb_refl.
Qed.

Lemma at_is_lookup (buf : Buffer) (i : nat) (c : byte) :
  at_is buf i (byte_value c) = true <-> buf !! i = Some c.
Proof.
  unfold at_is, at_. destruct (buf !! i) as [b|]; simpl; [|split; discriminate].
  rewrite (byte_value_is b c) by done. split; congruence.
Qed.

Lemma comma_not_digit : Js.is_digit ","%char = false.
Proof. reflexivity. Qed.

Lemma append_cons (c : ascii) (s t : string) :
  String.append (String c s) t = String c (String.append s t).
Proof. reflexivity. Qed.

Lemma append_empty_l (s : string) : String.append "" s = s.
Proof. reflexivity. Qed.

Lemma append_empty_r (s : string) : String.append s "" = s.
Proof. induction s as [|c s IH]; [done|]. by rewrite append_cons, IH. Qed.

Lemma span_digits_split (s d rest : string) :
  Js.span_digits s = (d, rest) ->
  s = String.append d rest /\ all_digits d = true /\
  match rest with
  | "" => True
  | String c _ => Js.is_digit c = false
  end.
Proof.
  revert d rest. induction s as [|c s IH]; intros d rest; simpl.
  - intros [= <- <-]. done.
  - destruct (Js.is_digit c) eqn:Hc.
    + destruct (Js.span_digits s) as [d' rest'].
      intros [= <- <-]. destruct (IH d' rest' eq_refl) as (-> & Hd & Hr).
      rewrite append_cons. simpl. rewrite Hc. done.
    + intros [= <- <-]. rewrite append_empty_l. done.
Qed.

Lemma span_digits_append (d rest : string) :
  all_digits d = true ->
  match rest with
  | "" => True
  | String c _ => Js.is_digit c = false
  end ->
  Js.span_digits (String.append d rest) = (d, rest).
Proof.
  intros Hd Hr. induction d as [|c d IH].
  - rewrite append_empty_l. destruct rest as [|c rest]; simpl; [done|]. by rewrite Hr.
  - simpl in Hd. apply andb_prop in Hd as [Hc Hd].
    rewrite append_cons. simpl. rewrite Hc, IH; done.
Qed.

(** The regular expression test accepts exactly digits, comma, digits. *)
Lemma match_digits_comma_digits_spec (s : string) :
  Js.match_digits_comma_digits s = true <->
  exists cols rows, digits cols /\ digits rows /\
    s = String.append cols (String "," rows).
Proof.
  unfold Js.match_digits_comma_digits, digits. split.
  - destruct (Js.span_digits s) as [d1 rest] eqn:H1.
    apply span_digits_split in H1 as (-> & Hd1 & _).
    destruct d1 as [|a d1]; [discriminate|].
    destruct rest as [|c rest]; [discriminate|].
    intros [Hc H2]%andb_prop. apply Ascii.eqb_eq in Hc as ->.
    destruct (Js.span_digits rest) as [d2 rest2] eqn:H3.
    apply span_digits_split in H3 as (-> & Hd2 & _).
    destruct d2 as [|b d2]; [discriminate|].
    destruct rest2; [|discriminate].
    exists (String a d1), (String b d2). rewrite append_empty_r. done.
  - intros (cols & rows & [Hc1 Hc2] & [Hr1 Hr2] & ->).
    rewrite (span_digits_append cols (String "," rows)) by done.
    destruct cols as [|a cols]; [done|].
    rewrite <- (append_empty_r rows) at 1.
    rewrite (span_digits_append rows "") by done.
    destruct rows; done.
Qed.

Lemma split_comma_digits (d : string) :
  all_digits d = true -> Js.split_comma d = [d].
Proof.
  induction d as [|c d IH]; simpl; [done|].
  intros [Hc Hd]%andb_prop. rewrite (IH Hd).
  destruct (Ascii.eqb c ",") eqn:E; [|done].
  apply Ascii.eqb_eq in E as ->. discriminate.
Qed.

Lemma split_comma_pair (cols rows : string) :
  all_digits cols = true -> all_digits rows = true ->
  Js.split_comma (String.append cols (String "," rows)) = [cols; rows].
Proof.
  intros Hc Hr. induction cols as [|c cols IH].
  - rewrite append_empty_l. simpl. by rewrite split_comma_digits.
  - simpl in Hc. apply andb_prop in Hc as [Hc Hcols].
    rewrite append_cons. simpl. rewrite (IH Hcols).
    destruct (Ascii.eqb c ",") eqn:E; [|done].
    apply Ascii.eqb_eq in E as ->. discriminate.
Qed.

(** ** The demultiplexer's tests against the rules *)

Lemma is_corruption_spec (b : Buffer) :
  is_corruption b = true <-> rule_corruption b.
Proof.
  unfold is_corruption, rule_corruption.
  change 0xCD with (byte_value xcd). change 0xE4 with (byte_value xe4).
  change 0xD3 with (byte_value xd3). change 0x63 with (byte_value x63).
  rewrite !andb_true_iff, !at_is_lookup, Z.leb_le.
  destruct b as [|b0 [|b1 [|b2 [|b3 rest]]]]; simpl;
    try (split; [intros [[[[? ?] ?] ?] ?]; simplify_eq/=; lia | discriminate]).
  split.
  - intros [[[[_ ?] ?] ?] ?]. by simplify_eq.
  - intros [= -> -> -> ->]. repeat split; lia.
Qed.

Lemma is_high_byte_spec (b : Buffer) :
  is_high_byte b = true <-> rule_high_byte b.
Proof.
  unfold is_high_byte, rule_high_byte, at_.
  rewrite !andb_true_iff, !Z.ltb_lt.
  destruct b as [|first rest]; simpl.
  - split; [lia|]. intros [_ (? & ? & ? & _)]. discriminate.
  - fold (byte_value first). rewrite Z.ltb_lt. split.
    + intros [[? _] ?]. split; [lia|]. by exists first, rest.
    + intros [? (f & r & [= <- <-] & ?)]. repeat split; lia.
Qed.

Lemma hasControlSeq_spec (b : Buffer) :
  hasControlSeq b = true <-> rule_escape b.
Proof.
  unfold hasControlSeq, rule_escape.
  change 0x1b with (byte_value x1b). change 0x5d with (byte_value x5d).
  by rewrite andb_true_iff, !buf_includes_elem.
Qed.

Lemma numeric_spec (b : Buffer) :
  Js.match_digits_comma_digits (toString b) = true <-> rule_numeric b.
Proof. apply match_digits_comma_digits_spec. Qed.

(** ** The demultiplexer *)

Section Demux.

Context (JSON_parse : string -> option Js.Value).

(** A numeric directive is read as [cols,rows]. *)
Lemma demux_numeric (b : Buffer) (cols rows : string) :
  ~ rule_corruption b -> ~ rule_high_byte b -> ~ rule_escape b ->
  digits cols -> digits rows ->
  toString b = String.append cols (String "," rows) ->
  demux JSON_parse b =
  ResizeNumeric (Js.Number (Js.Number_of cols)) (Js.Number (Js.Number_of rows)).
Proof.
  rewrite <- is_corruption_spec, <- is_high_byte_spec, <- hasControlSeq_spec.
  intros H1 H2 H3 Hc Hr Ht. unfold demux.
  destruct (is_corruption b); [done|].
  destruct (is_high_byte b); [done|].
  destruct (hasControlSeq b); [done|].
  assert (Js.match_digits_comma_digits (toString b) = true) as ->.
  { apply match_digits_comma_digits_spec. by exists cols, rows. }
  rewrite Ht, split_comma_pair by (apply Hc || apply Hr). reflexivity.
Qed.

(** What is forwarded is the frame itself. *)
Lemma demux_forward (b d : Buffer) :
  demux JSON_parse b = ForwardRaw d -> d = b.
Proof.
  unfold demux. repeat case_match; congruence.
Qed.

(** What the message handler does with each outcome. *)
Lemma on_message_calls (ws : nat) (b : Buffer) (s : Server) :
  on_message JSON_parse ws b s =
  Ok tt s
    match demux JSON_parse b with
    | DiscardCorruption | DiscardHighByte | DiscardEscape => []
    | ResizeNumeric cols rows | ResizeStructured cols rows => [FxResize ws rows cols]
    | ForwardRaw _ => [FxWrite ws b]
    end.
Proof.
  unfold on_message. monad.
  destruct (demux JSON_parse b) eqn:E; try reflexivity.
  by apply demux_forward in E as ->.
Qed.

(** The first four rules are decided in the order of section 4.4. *)
Lemma demux_kind_filters (b : Buffer) :
  (rule_corruption b <-> kind_of (demux JSON_parse b) = Corruption) /\
  (~ rule_corruption b /\ rule_high_byte b <->
   kind_of (demux JSON_parse b) = HighByte) /\
  (~ rule_corruption b /\ ~ rule_high_byte b /\ rule_escape b <->
   kind_of (demux JSON_parse b) = Escape) /\
  (~ rule_corruption b /\ ~ rule_high_byte b /\ ~ rule_escape b /\ rule_numeric b <->
   kind_of (demux JSON_parse b) = Numeric).
Proof.
  unfold demux.
  pose proof (is_corruption_spec b) as R1.
  pose proof (is_high_byte_spec b) as R2.
  pose proof (hasControlSeq_spec b) as R3.
  pose proof (numeric_spec b) as R4.
  destruct (is_corruption b); [simpl; intuition congruence|].
  destruct (is_high_byte b); [simpl; intuition congruence|].
  destruct (hasControlSeq b); [simpl; intuition congruence|].
  destruct (Js.match_digits_comma_digits (toString b));
    [simpl; intuition congruence|].
  destruct (json_resize JSON_parse (toString b)) as [[cols rows]|];
    simpl; intuition congruence.
Qed.

(** Reading a dimension with [||] finds a usable value exactly when
    the object gives the dimension under one of the three spellings. *)
Lemma first_of_gives (obj : Js.Value) (k1 k2 k3 : string) :
  (exists v, first_of obj k1 k2 k3 = Some v /\ Js.truthy v = true) <->
  gives_dimension obj [k1; k2; k3].
Proof.
  unfold first_of, gives_dimension. split.
  - intros (v & Hv & Ht).
    destruct (Js.get obj k1) as [a|] eqn:Ha; [|discriminate]. simpl in Hv.
    destruct (Js.truthy a) eqn:Hta.
    { injection Hv as <-. exists k1, a. split; [set_solver|done]. }
    destruct (Js.get obj k2) as [c|] eqn:Hc; [|discriminate]. simpl in Hv.
    destruct (Js.truthy c) eqn:Htc.
    { injection Hv as <-. exists k2, c.
      split; [set_solver|done]. }
    exists k3, v. split; [|done].
    set_solver.
  - intros (k & v & Hin & Hv & Ht).
    assert (forall k', exists v', Js.get obj k' = Some v') as Htotal.
    { intros k'. destruct obj; try discriminate; by eexists. }
    destruct (Htotal k1) as [a Ha], (Htotal k2) as [c Hc]. rewrite Ha. simpl.
    destruct (Js.truthy a) eqn:Hta; [by exists a|].
    rewrite Hc. simpl.
    destruct (Js.truthy c) eqn:Htc; [by exists c|].
    exists v. split; [|done].
    repeat (apply elem_of_cons in Hin as [->|Hin]; [congruence|]).
    by apply elem_of_nil in Hin.
Qed.

(** When the JSON branch issues a resize. *)
Lemma json_resize_Some (text : string) :
  is_Some (json_resize JSON_parse text) <->
  Js.startsWith text "{" = true /\
  (Js.includes text "Width" = true \/ Js.includes text "height" = true) /\
  exists obj,
    JSON_parse text = Some obj /\
    gives_dimension obj width_keys /\ gives_dimension obj height_keys.
Proof.
  unfold json_resize, width_keys, height_keys. split.
  - destruct (Js.startsWith text "{"); [|intros [? ?]; discriminate].
    destruct (Js.includes text "Width" || Js.includes text "height") eqn:Hguard;
      [|intros [? ?]; discriminate].
    apply orb_true_iff in Hguard. cbn [andb].
    destruct (JSON_parse text) as [obj|]; [|intros [? ?]; discriminate].
    cbn [mbind option_bind].
    destruct (first_of obj "Height" "height" "h") as [rows|] eqn:Hrows;
      [|intros [? ?]; discriminate].
    cbn [mbind option_bind].
    destruct (first_of obj "Width" "width" "w") as [cols|] eqn:Hcols;
      [|intros [? ?]; discriminate].
    cbn [mbind option_bind].
    destruct (Js.truthy rows) eqn:Hr, (Js.truthy cols) eqn:Hc;
      try (intros [? ?]; discriminate).
    intros _. repeat split; try done. exists obj. split; [done|].
    split; apply first_of_gives; by eexists.
  - intros (-> & Hguard & obj & -> & Hw & Hh).
    apply orb_true_iff in Hguard as ->. cbn [andb mbind option_bind].
    apply first_of_gives in Hw as (cols & Hcols & Htc).
    apply first_of_gives in Hh as (rows & Hrows & Htr).
    rewrite Hrows. cbn [mbind option_bind]. rewrite Hcols. cbn [mbind option_bind].
    rewrite Htr, Htc. by eexists.
Qed.

Lemma demux_structured_iff (b : Buffer) :
  kind_of (demux JSON_parse b) = Structured <->
  ~ rule_corruption b /\ ~ rule_high_byte b /\ ~ rule_escape b /\ ~ rule_numeric b /\
  is_Some (json_resize JSON_parse (toString b)).
Proof.
  unfold demux.
  pose proof (is_corruption_spec b) as R1.
  pose proof (is_high_byte_spec b) as R2.
  pose proof (hasControlSeq_spec b) as R3.
  pose proof (numeric_spec b) as R4.
  assert (forall A (x : A), is_Some (Some x)) as R5 by (intros; by eexists).
  assert (forall A, ~ is_Some (@None A)) as R6 by (intros A [? ?]; discriminate).
  destruct (is_corruption b); [simpl; intuition congruence|].
  destruct (is_high_byte b); [simpl; intuition congruence|].
  destruct (hasControlSeq b); [simpl; intuition congruence|].
  destruct (Js.match_digits_comma_digits (toString b));
    [simpl; intuition congruence|].
  destruct (json_resize JSON_parse (toString b)) as [[cols rows]|].
  - specialize (R5 _ (cols, rows)). simpl. intuition congruence.
  - specialize (R6 (Js.Value * Js.Value)%type). simpl. intuition congruence.
Qed.

End Demux.

(** C5: the demultiplexer follows the order of section 4.4 through its
    first four rules, and the three examples come out as stated; a frame
    that rule 5 takes is a structured resize when its text holds [Width]
    or [height], and every structured resize is of a frame that begins
    with [{], parses and gives both dimensions.  The order is broken at
    rule 5: for the frame [{"w":80,"h":24}] no earlier rule matches and
    rule 5 does, yet the outcome is that of rule 6 and the frame is
    written to the process, while [{"Width":80,"Height":24}] is the
    resize that rule 5 asks for. *)
Theorem demux_order_breaks_at_rule_5 :
  (forall JSON_parse b k,
     k <> Structured -> k <> Raw ->
     (applies JSON_parse k b <-> kind_of (demux JSON_parse b) = k)) /\
  (forall JSON_parse b,
     applies JSON_parse Structured b ->
     Js.includes (toString b) "Width" = true \/
     Js.includes (toString b) "height" = true ->
     kind_of (demux JSON_parse b) = Structured) /\
  (forall JSON_parse b,
     kind_of (demux JSON_parse b) = Structured ->
     ~ rule_corruption b /\ ~ rule_high_byte b /\ ~ rule_escape b /\
     ~ rule_numeric b /\
     Js.startsWith (toString b) "{" = true /\
     exists obj,
       JSON_parse (toString b) = Some obj /\
       gives_dimension obj width_keys /\ gives_dimension obj height_keys) /\
  (forall JSON_parse ws s,
     on_message JSON_parse ws (Buffer_from "80,24") s =
       Ok tt s [FxResize ws (Js.Number (Js.of_Z 24)) (Js.Number (Js.of_Z 80))] /\
     on_message JSON_parse ws (Buffer_from "hello") s =
       Ok tt s [FxWrite ws (Buffer_from "hello")] /\
     on_message JSON_parse ws [xcd; xe4; xd3; x63; x00] s = Ok tt s []) /\
  (applies Sample.parse Structured (Buffer_from Sample.text_wh) /\
   kind_of (demux Sample.parse (Buffer_from Sample.text_wh)) = Raw /\
   forall ws s,
     on_message Sample.parse ws (Buffer_from Sample.text_wh) s =
       Ok tt s [FxWrite ws (Buffer_from Sample.text_wh)]) /\
  (applies Sample.parse Structured (Buffer_from Sample.text_WidthHeight) /\
   demux Sample.parse (Buffer_from Sample.text_WidthHeight) =
     ResizeStructured Sample.n80 Sample.n24).
Proof.
  assert (forall text wk hk,
    Sample.parse text = Some (Js.Object [(wk, Sample.n80); (hk, Sample.n24)]) ->
    Js.startsWith text "{" = true ->
    Js.includes text wk = true -> Js.includes text hk = true ->
    wk ∈ width_keys -> hk ∈ height_keys -> wk <> hk ->
    rule_structured Sample.parse (Buffer_from text)) as Hrule.
  { intros text wk hk Hparse Hbrace Hw Hh Hwk Hhk Hne.
    unfold rule_structured, toString, Buffer_from.
    rewrite string_of_list_byte_of_string. cbv zeta.
    split; [done|]. split; [by exists wk|]. split; [by exists hk|].
    eexists. split; [exact Hparse|]. split.
    - exists wk, Sample.n80. split; [done|]. split; [|reflexivity].
      simpl. by rewrite String.eqb_refl.
    - exists hk, Sample.n24. split; [done|]. split; [|reflexivity].
      simpl. destruct (String.eqb_spec hk wk); [congruence|].
      by rewrite String.eqb_refl. }
  assert (forall text,
    is_corruption (Buffer_from text) = false ->
    is_high_byte (Buffer_from text) = false ->
    hasControlSeq (Buffer_from text) = false ->
    Js.match_digits_comma_digits (toString (Buffer_from text)) = false ->
    rule_structured Sample.parse (Buffer_from text) ->
    applies Sample.parse Structured (Buffer_from text)) as Happlies.
  { intros text H1 H2 H3 H4 H5. simpl.
    rewrite <- is_corruption_spec, <- is_high_byte_spec, <- hasControlSeq_spec,
      <- numeric_spec, H1, H2, H3, H4. by do 4 (split; [done|]). }
  split; [|split; [|split; [|split; [|split]]]].
  - intros JSON_parse b k H5 H6.
    destruct (demux_kind_filters JSON_parse b) as (F1 & F2 & F3 & F4).
    by destruct k.
  - intros JSON_parse b (H1 & H2 & H3 & H4 & Hbrace & _ & _ & Hobj) Hguard.
    apply demux_structured_iff. repeat split; try done.
    apply json_resize_Some. by repeat split.
  - intros JSON_parse b (H1 & H2 & H3 & H4 & Hsome)%demux_structured_iff.
    apply json_resize_Some in Hsome as (Hbrace & _ & Hobj). by repeat split.
  - intros JSON_parse ws s. rewrite !on_message_calls. by repeat split.
  - split; [|split].
    + apply Happlies; try reflexivity.
      apply (Hrule Sample.text_wh "w" "h");
        [reflexivity | reflexivity | reflexivity | reflexivity | | | done];
        unfold width_keys, height_keys; rewrite !elem_of_cons; tauto.
    + reflexivity.
    + intros ws s. by rewrite on_message_calls.
  - split; [|reflexivity].
    apply Happlies; try reflexivity.
    apply (Hrule Sample.text_WidthHeight "Width" "Height");
      [reflexivity | reflexivity | reflexivity | reflexivity | | | done];
      unfold width_keys, height_keys; rewrite !elem_of_cons; tauto.
Qed.

(** C6: the frame [{"w":80,"h":24}] parses to an object from which the
    JSON branch would read both dimensions, as it does for
    [{"Width":80,"Height":24}], yet the test in front of the branch looks
    for [Width] or [height] only and the frame is written to the process
    as input. *)
Theorem json_guard_misses_short_keys (ws : nat) (s : Server) :
  (exists resizeData,
     Sample.parse Sample.text_wh = Some resizeData /\
     first_of resizeData "Height" "height" "h" = Some Sample.n24 /\
     first_of resizeData "Width" "width" "w" = Some Sample.n80) /\
  on_message Sample.parse ws (Buffer_from Sample.text_wh) s =
    Ok tt s [FxWrite ws (Buffer_from Sample.text_wh)] /\
  on_message Sample.parse ws (Buffer_from Sample.text_WidthHeight) s =
    Ok tt s [FxResize ws Sample.n24 Sample.n80].
Proof.
  split; [eexists; split; [reflexivity|split; reflexivity]|].
  rewrite !on_message_calls. split; reflexivity.
Qed.

(** ** The event loop *)

Ltac handlers :=
  unfold handle, getaccess, when_streaming, when_attaching, on_connection,
    on_exec_started, on_exec_failed, on_stream_data, on_stream_end, on_ws_close,
    on_stream_error, on_ws_error, bridge_of in *.

(** Runs a handler to its end, splitting on every test it makes. *)
Ltac crunch :=
  handlers; prims; monad;
  unfold set_socket, set_sessions, socket_of, with_readyState, with_bridge in *;
  cbn in *;
  repeat (first [rewrite on_message_calls in * | case_match];
          simplify_map_eq/=; eauto).

Section Loop.

Context (cfg : Config) (JSON_parse : string -> option Js.Value).

(** No exception leaves a handler: every [ws.send] is made on an open
    socket, and what can throw sits inside a [try]. *)
Lemma handle_ok (e : Event) (s : Server) :
  exists s' fx, handle cfg JSON_parse e s = Ok tt s' fx.
Proof. destruct e; crunch. Qed.


Lemma run_ok (events : list Event) (s : Server) :
  exists s' fx, run cfg JSON_parse events s = Ok tt s' fx.
Proof.
  revert s. induction events as [|e events IH]; intros s; simpl.
  - by eexists _, _.
  - monad. destruct (handle_ok e s) as (s1 & fx1 & ->).
    destruct (IH s1) as (s2 & fx2 & ->). by eexists _, _.
Qed.

Lemma run_cons (e : Event) (events : list Event) (s : Server) :
  let r := handle cfg JSON_parse e s in
  let r' := run cfg JSON_parse events (final r) in
  run cfg JSON_parse (e :: events) s = Ok tt (final r') (calls r ++ calls r')%list.
Proof.
  simpl. monad. destruct (handle_ok e s) as (s1 & fx1 & ->). simpl.
  destruct (run_ok events s1) as (s2 & fx2 & ->). reflexivity.
Qed.

Lemma final_run_cons (e : Event) (events : list Event) (s : Server) :
  final (run cfg JSON_parse (e :: events) s) =
  final (run cfg JSON_parse events (final (handle cfg JSON_parse e s))).
Proof. by rewrite run_cons. Qed.

Lemma calls_run_cons (e : Event) (events : list Event) (s : Server) :
  calls (run cfg JSON_parse (e :: events) s) =
  (calls (handle cfg JSON_parse e s)
   ++ calls (run cfg JSON_parse events (final (handle cfg JSON_parse e s))))%list.
Proof. by rewrite run_cons. Qed.

(** A socket the server has seen stays in its table. *)
Lemma handle_known (e : Event) (s : Server) (ws : nat) :
  is_Some (sockets s !! ws) ->
  is_Some (sockets (final (handle cfg JSON_parse e s)) !! ws).
Proof.
  intros [c Hc]. destruct e as [| ws' | ws' | ws' | ws' | ws' | ws' | ws' | ws' | ws'];
    [by crunch|..]; destruct (decide (ws' = ws)) as [->|Hne]; crunch.
Qed.

Lemma run_known (events : list Event) (s : Server) (ws : nat) :
  is_Some (sockets s !! ws) ->
  is_Some (sockets (final (run cfg JSON_parse events s)) !! ws).
Proof.
  revert s. induction events as [|e events IH]; intros s Hs; [done|].
  rewrite final_run_cons. apply IH. by apply handle_known.
Qed.

(** An exec is only requested for a socket that has just connected. *)
Lemma handle_no_exec (e : Event) (s : Server) (ws : nat) :
  is_Some (sockets s !! ws) ->
  List.filter (is_exec ws) (calls (handle cfg JSON_parse e s)) = [].
Proof.
  intros [c Hc]. destruct e; crunch.
  all: try (rewrite Nat.eqb_refl in *; congruence).
  all: destruct (Nat.eqb_spec ws0 ws); simplify_map_eq; done.
Qed.

Lemma run_no_exec (events : list Event) (s : Server) (ws : nat) :
  is_Some (sockets s !! ws) ->
  List.filter (is_exec ws) (calls (run cfg JSON_parse events s)) = [].
Proof.
  revert s. induction events as [|e events IH]; intros s Hs; [done|].
  rewrite calls_run_cons, List.filter_app, (handle_no_exec e s ws Hs).
  apply IH. by apply handle_known.
Qed.

End Loop.

(** ** Token verification and the connection handler *)

Section Connection.

Context (cfg : Config) (JSON_parse : string -> option Js.Value).

(** The three ways [jwt.verify] fails: not a token, signed under another
    key, or past its expiry. *)
Lemma jwt_verify_fails (tok : Token) (now : Z) :
  (exists err, jwt.verify tok (JWT_SECRET cfg) now = inr err) <->
  match tok with
  | Opaque _ => True
  | Jws key _ _ expires => key <> JWT_SECRET cfg \/ expires <= now / 1000
  end.
Proof.
  destruct tok as [str|key p i e]; simpl.
  - split; [done|]. by eexists.
  - destruct (String.eqb_spec key (JWT_SECRET cfg)) as [->|Hk]; simpl.
    + destruct (Z.leb_spec e (now / 1000)); split; try by eexists.
      * by right.
      * intros [? ?]. discriminate.
      * intros [?|?]; [done|lia].
    + split; [by left|]. by eexists.
Qed.

Lemma verified_is_token (tok : Token) (now : Z) (d : Decoded) :
  verifyToken cfg tok now = Some d -> no_token (Some tok) = false.
Proof. destruct tok; [discriminate|done]. Qed.

Lemma connection_without_session
  (s : Server) (ws : nat) (tok : Token) (now : Z) (d : Decoded) :
  sockets s !! ws = None ->
  verifyToken cfg tok now = Some d ->
  activeSessions s !! sessionId (claims d) = None ->
  handle cfg JSON_parse (Connection ws (Some tok) now) s =
  Ok tt (rejected ws s)
    [FxSend ws (ErrorFrame "Session not found or expired"); FxClose ws].
Proof.
  intros Hws Hv Hs. pose proof (verified_is_token _ _ _ Hv) as Ht.
  destruct tok as [str|key p i e]; [discriminate|].
  unfold handle. monad. rewrite Hws. unfold on_connection. rewrite Hv.
  crunch. by rewrite alter_insert_eq.
Qed.

Lemma connection_with_session
  (s : Server) (ws : nat) (tok : Token) (now : Z) (d : Decoded) (info : Session) :
  sockets s !! ws = None ->
  verifyToken cfg tok now = Some d ->
  activeSessions s !! sessionId (claims d) = Some info ->
  exists s',
    handle cfg JSON_parse (Connection ws (Some tok) now) s =
      Ok tt s' [FxExec ws (containerId info)] /\
    activeSessions s' = activeSessions s /\
    socket_of s' ws =
      {| readyState := OPEN; bridge := Attaching (sessionId (claims d)) |}.
Proof.
  intros Hws Hv Hs. pose proof (verified_is_token _ _ _ Hv) as Ht.
  destruct tok as [str|key p i e]; [discriminate|].
  unfold handle. monad. rewrite Hws. unfold on_connection. rewrite Hv.
  crunch. eexists. split; [reflexivity|]. crunch.
Qed.

(** C2: a connection whose token verifies but whose session id has no
    entry in the registry is sent one error frame and closed; the registry
    lookup decides. *)
Theorem verified_token_without_session_rejected
  (s : Server) (ws : nat) (tok : Token) (now : Z) (d : Decoded) :
  sockets s !! ws = None ->
  verifyToken cfg tok now = Some d ->
  activeSessions s !! sessionId (claims d) = None ->
  handle cfg JSON_parse (Connection ws (Some tok) now) s =
  Ok tt (rejected ws s)
    [FxSend ws (ErrorFrame "Session not found or expired"); FxClose ws].
Proof. apply connection_without_session. Qed.

(** C7: a token that [jwt.verify] refuses, for whichever reason, makes
    [verifyToken] return its failure value; the connection that presents
    it is sent exactly one error frame and closed, and no exec is ever
    requested for it. *)
Theorem failing_token_rejected
  (s : Server) (ws : nat) (tok : Token) (now : Z) (err : JwtError) :
  sockets s !! ws = None ->
  no_token (Some tok) = false ->
  jwt.verify tok (JWT_SECRET cfg) now = inr err ->
  verifyToken cfg tok now = None /\
  handle cfg JSON_parse (Connection ws (Some tok) now) s =
    Ok tt (rejected ws s)
      [FxSend ws (ErrorFrame "Invalid or expired token"); FxClose ws] /\
  forall events,
    List.filter (is_exec ws)
      (calls (run cfg JSON_parse events (rejected ws s))) = [].
Proof.
  intros Hws Ht Hv.
  assert (verifyToken cfg tok now = None) as Hnone.
  { unfold verifyToken. by rewrite Hv. }
  split; [done|]. split.
  - unfold handle. monad. rewrite Hws. unfold on_connection. rewrite Hnone.
    destruct tok as [[|c str]|key p i e]; [discriminate|..];
      crunch; by rewrite alter_insert_eq.
  - intros events. apply run_no_exec. unfold rejected. simpl.
    rewrite lookup_insert_eq. by eexists.
Qed.

(** C10: two verified tokens with the same session id are handled alike
    whatever their [containerName] claims say, and the exec is requested
    on the container id held by the registry entry. *)
Theorem attach_ignores_containerName_claim
  (s : Server) (ws : nat) (tok1 tok2 : Token) (now1 now2 : Z) (d1 d2 : Decoded) :
  verifyToken cfg tok1 now1 = Some d1 ->
  verifyToken cfg tok2 now2 = Some d2 ->
  sessionId (claims d1) = sessionId (claims d2) ->
  handle cfg JSON_parse (Connection ws (Some tok1) now1) s =
  handle cfg JSON_parse (Connection ws (Some tok2) now2) s /\
  forall info,
    sockets s !! ws = None ->
    activeSessions s !! sessionId (claims d1) = Some info ->
    calls (handle cfg JSON_parse (Connection ws (Some tok1) now1) s) =
      [FxExec ws (containerId info)].
Proof.
  intros Hv1 Hv2 Hsid.
  pose proof (verified_is_token _ _ _ Hv1) as Ht1.
  pose proof (verified_is_token _ _ _ Hv2) as Ht2.
  destruct tok1 as [?|k1 p1 i1 e1]; [discriminate|].
  destruct tok2 as [?|k2 p2 i2 e2]; [discriminate|].
  split.
  - unfold handle, on_connection. rewrite Hv1, Hv2, Hsid. reflexivity.
  - intros info Hws Hinfo. unfold handle, on_connection. monad.
    rewrite Hws, Hv1. crunch.
Qed.

End Connection.

(** ** The access request *)

Section Access.

Context (cfg : Config).

Lemma find_none_forall {A} (f : A -> bool) (l : list A) :
  Forall (fun x => f x = false) l -> List.find f l = None.
Proof. induction 1 as [|x l Hx _ IH]; simpl; [done|]. by rewrite Hx. Qed.

(** C8: a request whose name matches no known container is refused with
    NotFound, one whose matched container is not running with
    NotRunning, and in both cases the server state, registry included,
    is left as it was. *)
Theorem access_refused
  (s : Server) (name : string) (containers : list ContainerInfo) (uuid : string)
  (t_sign t_set t_sweep : Z) :
  name <> "" ->
  (Forall (fun c => matches name c = false) containers ->
   getaccess cfg (Some name) (inl containers) uuid t_sign t_set t_sweep s =
     Ok tt s [FxRespond (NotFound name)]) /\
  (forall c,
     List.find (matches name) containers = Some c ->
     State c <> "running" ->
     getaccess cfg (Some name) (inl containers) uuid t_sign t_set t_sweep s =
       Ok tt s [FxRespond (NotRunning name (State c))]).
Proof.
  intros Hname. split.
  - intros Hnone%find_none_forall. unfold getaccess. monad.
    destruct name; [done|]. by rewrite Hnone.
  - intros c Hc Hstate. unfold getaccess. monad.
    destruct name; [done|]. rewrite Hc.
    destruct (String.eqb_spec (State c) "running"); done.
Qed.

(** C3, amended: a successful request for a running container answers
    with that container's id and registers it under the new session id;
    the token's claims hold the name as it was asked for and that
    session id. *)
Theorem access_granted
  (s : Server) (name : string) (containers : list ContainerInfo)
  (c : ContainerInfo) (uuid : string) (t_sign t_set t_sweep : Z) :
  name <> "" ->
  List.find (matches name) containers = Some c ->
  State c = "running" ->
  t_sweep - 600000 <= t_set ->
  let token := generateToken cfg name uuid t_sign in
  exists s',
    getaccess cfg (Some name) (inl containers) uuid t_sign t_set t_sweep s =
      Ok tt s' [FxRespond (Success {| a_token := token;
                                      a_sessionId := uuid;
                                      a_containerName := name;
                                      a_containerId := Id c |})] /\
    activeSessions s' !! uuid =
      Some {| s_containerName := name; containerId := Id c; createdAt := t_set |} /\
    forall now,
      now / 1000 < t_sign / 1000 + TOKEN_EXPIRY cfg ->
      exists d,
        verifyToken cfg token now = Some d /\
        claims d = {| containerName := name;
                      sessionId := uuid;
                      type := "terminal-access" |}.
Proof.
  intros Hname Hc Hstate Hsweep token. unfold getaccess. monad.
  destruct name as [|a name]; [done|]. rewrite Hc, Hstate. simpl.
  eexists. split; [reflexivity|]. split.
  - simpl. apply map_lookup_filter_Some_2; [apply lookup_insert_eq|]. simpl. lia.
  - intros now Hnow. unfold verifyToken, token, generateToken, jwt.sign, jwt.verify.
    rewrite String.eqb_refl. simpl.
    destruct (Z.leb_spec (t_sign / 1000 + TOKEN_EXPIRY cfg) (now / 1000)); [lia|].
    by eexists.
Qed.

End Access.

(** ** Teardown of the bridge *)

Section Teardown.

Context (cfg : Config) (JSON_parse : string -> option Js.Value).


Lemma deletions_app (sid : string) (fx1 fx2 : list Effect) :
  deletions sid (fx1 ++ fx2) = (deletions sid fx1 + deletions sid fx2)%nat.
Proof. unfold deletions. by rewrite List.filter_app, length_app. Qed.


(** The socket's close event: the stream is ended and the session
    deleted. *)
Lemma close_live (s : Server) (ws : nat) (sid : string) (ended : bool)
  (r : ReadyState) :
  socket_of s ws = {| readyState := r; bridge := Streaming sid ended |} ->
  r <> CLOSED ->
  exists s',
    handle cfg JSON_parse (WsClose ws) s = Ok tt s' [FxEnd ws; FxDelete sid] /\
    activeSessions s' = delete sid (activeSessions s) /\
    socket_of s' ws = {| readyState := CLOSED; bridge := Streaming sid true |}.
Proof.
  intros Hs Hr. crunch.
  all: try (eexists; split; [reflexivity|]; crunch; done).
Qed.














End Teardown.

(** ** Tokens after the socket has closed *)

Section Reuse.

Context (cfg : Config) (JSON_parse : string -> option Js.Value).

Lemma getaccess_absent (s : Server) (sid : string) (name : option string)
  (listing : list ContainerInfo + string) (uuid : string) (t_sign t_set t_sweep : Z) :
  activeSessions s !! sid = None ->
  uuid <> sid ->
  activeSessions
    (final (getaccess cfg name listing uuid t_sign t_set t_sweep s)) !! sid = None.
Proof.
  intros Hs Hne. unfold getaccess. monad.
  destruct name as [[|a name]|]; simpl; try done.
  destruct listing as [containers|message]; simpl; try done.
  destruct (List.find _ containers) as [c|]; simpl; try done.
  destruct (negb _); simpl; try done.
  apply map_lookup_filter_None_2. left. by rewrite lookup_insert_ne.
Qed.

(** A session id that is not in the registry stays out of it, unless a
    request issues it again. *)
Lemma handle_absent (e : Event) (s : Server) (sid : string) :
  activeSessions s !! sid = None ->
  issues sid e = false ->
  activeSessions (final (handle cfg JSON_parse e s)) !! sid = None.
Proof.
  intros Hs He. destruct e.
  - simpl in He. apply getaccess_absent; [done|].
    intros ->. by rewrite String.eqb_refl in He.
  - crunch.
  - crunch.
  - crunch.
  - crunch.
  - crunch.
  - crunch.
  - crunch.
  - crunch.
  - crunch. all: by apply lookup_delete_None; right.
Qed.

Lemma run_absent (events : list Event) (s : Server) (sid : string) :
  activeSessions s !! sid = None ->
  forallb (fun e => negb (issues sid e)) events = true ->
  activeSessions (final (run cfg JSON_parse events s)) !! sid = None.
Proof.
  revert s. induction events as [|e events IH]; intros s Hs Hev; [done|].
  simpl in Hev. apply andb_prop in Hev as [He Hev]. apply negb_true_iff in He.
  rewrite final_run_cons. apply IH; [|done]. by apply handle_absent.
Qed.

(** C1, amended: once the bridge has handled the close event of the
    socket a token was used on, a later connection that presents a token
    of that session is sent one error frame and closed, with no exec
    requested, whatever happened in between short of the session id being
    issued again; before that close, a connection presenting the token
    while the session is in the registry gets an exec on the session's
    container. *)
Theorem token_rejected_after_close
  (s : Server) (ws : nat) (sid : string) (ended : bool) (r : ReadyState)
  (events : list Event) (ws' : nat) (tok : Token) (now : Z) (d : Decoded) :
  socket_of s ws = {| readyState := r; bridge := Streaming sid ended |} ->
  r <> CLOSED ->
  forallb (fun e => negb (issues sid e)) events = true ->
  verifyToken cfg tok now = Some d ->
  sessionId (claims d) = sid ->
  let s1 := final (run cfg JSON_parse (WsClose ws :: events) s) in
  sockets s1 !! ws' = None ->
  handle cfg JSON_parse (Connection ws' (Some tok) now) s1 =
    Ok tt (rejected ws' s1)
      [FxSend ws' (ErrorFrame "Session not found or expired"); FxClose ws'] /\
  forall info,
    activeSessions s !! sid = Some info ->
    calls (handle cfg JSON_parse (Connection ws' (Some tok) now) s) =
      [FxExec ws' (containerId info)].
Proof.
  intros Hs Hr Hev Hv Hsid s1 Hws'. split.
  - apply (connection_without_session cfg JSON_parse s1 ws' tok now d Hws' Hv).
    rewrite Hsid. unfold s1. rewrite final_run_cons.
    apply run_absent; [|done].
    destruct (close_live cfg JSON_parse s ws sid ended r Hs Hr) as (s2 & H1 & H2 & _).
    rewrite H1. simpl. rewrite H2. apply lookup_delete_eq.
  - intros info Hinfo.
    assert (sockets s !! ws' = None) as Hfresh.
    { destruct (sockets s !! ws') eqn:E; [|done].
      assert (is_Some (sockets s1 !! ws')) as [? ?]; [|congruence].
      apply run_known. by eexists. }
    rewrite <- Hsid in Hinfo.
    destruct (connection_with_session cfg JSON_parse s ws' tok now d info Hfresh Hv Hinfo)
      as (s2 & -> & _). reflexivity.
Qed.

End Reuse.

(** ** The properties on the sample data *)

(** C1, as stated, fails: socket 2 presents the token of [s1] while
    socket 1, opened with it, is still streaming, and gets an exec stream
    of its own on the same container. *)
Lemma token_accepted_while_live :
  let token := Sample.token_for "web" "s1" in
  let r := run Sample.cfg Sample.parse
             [Connection 2 (Some token) 2000; ExecStarted 2] Sample.streaming in
  socket_of Sample.streaming 1 =
    {| readyState := OPEN; bridge := Streaming "s1" false |} /\
  calls r = [FxExec 2 "abc123"] /\
  socket_of (final r) 1 = {| readyState := OPEN; bridge := Streaming "s1" false |} /\
  socket_of (final r) 2 = {| readyState := OPEN; bridge := Streaming "s1" false |}.
Proof. vm_compute. done. Qed.

Lemma token_rejected_after_close_witness :
  let s1 := final (run Sample.cfg Sample.parse
                     [WsClose 1; GetAccess (Some "web") (inl [Sample.web]) "s2" 5 5 5]
                     Sample.streaming) in
  handle Sample.cfg Sample.parse (Connection 2 (Some (Sample.token_for "web" "s1")) 2000) s1 =
    Ok tt (rejected 2 s1)
      [FxSend 2 (ErrorFrame "Session not found or expired"); FxClose 2].
Proof.
  refine (proj1 (token_rejected_after_close Sample.cfg Sample.parse
            Sample.streaming 1 "s1" false OPEN
            [GetAccess (Some "web") (inl [Sample.web]) "s2" 5 5 5]
            2 (Sample.token_for "web" "s1") 2000
            {| claims := {| containerName := "web"; sessionId := "s1";
                            type := "terminal-access" |};
               iat := 0; exp := 300 |}
            _ _ _ _ _ _)).
  - vm_compute. reflexivity.
  - discriminate.
  - reflexivity.
  - reflexivity.
  - reflexivity.
  - vm_compute. reflexivity.
Defined.

Lemma verified_token_without_session_rejected_witness :
  handle Sample.cfg_1h Sample.parse
    (Connection 1 (Some (generateToken Sample.cfg_1h "web" "s1" 0)) 700000)
    Sample.swept =
  Ok tt (rejected 1 Sample.swept)
    [FxSend 1 (ErrorFrame "Session not found or expired"); FxClose 1].
Proof.
  refine (verified_token_without_session_rejected Sample.cfg_1h Sample.parse
            Sample.swept 1 (generateToken Sample.cfg_1h "web" "s1" 0) 700000
            {| claims := {| containerName := "web"; sessionId := "s1";
                            type := "terminal-access" |};
               iat := 0; exp := 3600 |}
            _ _ _).
  - vm_compute. reflexivity.
  - reflexivity.
  - vm_compute. reflexivity.
Defined.

(** C3, as stated, fails: the request for [web] is answered with a token
    whose claims are the name [web], the session id and the type, none of
    which is the container's id. *)
Lemma token_claims_lack_container_id :
  exists token d,
    State Sample.web = "running" /\
    calls (handle Sample.cfg Sample.parse Sample.issue_s1 Sample.idle) =
      [FxRespond (Success {| a_token := token;
                             a_sessionId := "s1";
                             a_containerName := "web";
                             a_containerId := Id Sample.web |})] /\
    verifyToken Sample.cfg token 1000 = Some d /\
    containerName (claims d) <> Id Sample.web /\
    sessionId (claims d) <> Id Sample.web /\
    type (claims d) <> Id Sample.web.
Proof.
  eexists _, _. split; [reflexivity|]. split; [reflexivity|].
  split; [reflexivity|]. repeat split; discriminate.
Qed.

Lemma access_granted_witness :
  exists s',
    getaccess Sample.cfg (Some "web") (inl [Sample.web; Sample.db]) "s1" 0 0 0
      Sample.idle =
      Ok tt s' [FxRespond (Success {| a_token := generateToken Sample.cfg "web" "s1" 0;
                                      a_sessionId := "s1";
                                      a_containerName := "web";
                                      a_containerId := "abc123" |})] /\
    activeSessions s' !! "s1" =
      Some {| s_containerName := "web"; containerId := "abc123"; createdAt := 0 |} /\
    forall now,
      now / 1000 < 0 / 1000 + 300 ->
      exists d,
        verifyToken Sample.cfg (generateToken Sample.cfg "web" "s1" 0) now = Some d /\
        claims d = {| containerName := "web"; sessionId := "s1";
                      type := "terminal-access" |}.
Proof.
  refine (access_granted Sample.cfg Sample.idle "web" [Sample.web; Sample.db]
            Sample.web "s1" 0 0 0 _ _ _ _).
  - discriminate.
  - reflexivity.
  - reflexivity.
  - lia.
Defined.

(** C4: the exec for socket 1 fails after its token and session were
    accepted; the error frame is sent and the socket closed, but the
    close handler was never registered, so nothing deletes the session:
    it is still in the registry after the socket's close event, and the
    same token is accepted again. *)
Theorem attach_failure_leaves_session :
  let token := Sample.token_for "web" "s1" in
  let r := run Sample.cfg Sample.parse
             [Connection 1 (Some token) 1000; ExecFailed 1 "no such container";
              WsClose 1]
             Sample.issued in
  calls r =
    [FxExec 1 "abc123"; FxSend 1 (ErrorFrame "no such container"); FxClose 1] /\
  socket_of (final r) 1 = {| readyState := CLOSED; bridge := Detached |} /\
  activeSessions (final r) !! "s1" =
    Some {| s_containerName := "web"; containerId := "abc123"; createdAt := 0 |} /\
  calls (handle Sample.cfg Sample.parse (Connection 2 (Some token) 2000) (final r)) =
    [FxExec 2 "abc123"].
Proof. vm_compute. done. Qed.

Lemma failing_token_rejected_witness :
  verifyToken Sample.cfg (Sample.token_for "web" "s1") 400000 = None /\
  handle Sample.cfg Sample.parse
    (Connection 1 (Some (Sample.token_for "web" "s1")) 400000) Sample.issued =
    Ok tt (rejected 1 Sample.issued)
      [FxSend 1 (ErrorFrame "Invalid or expired token"); FxClose 1] /\
  forall events,
    List.filter (is_exec 1)
      (calls (run Sample.cfg Sample.parse events (rejected 1 Sample.issued))) = [].
Proof.
  refine (failing_token_rejected Sample.cfg Sample.parse Sample.issued 1
            (Sample.token_for "web" "s1") 400000 TokenExpiredError _ _ _).
  - vm_compute. reflexivity.
  - reflexivity.
  - reflexivity.
Defined.

Lemma access_refused_witness :
  getaccess Sample.cfg (Some "nginx") (inl [Sample.web; Sample.db]) "s1" 0 0 0
    Sample.issued =
    Ok tt Sample.issued [FxRespond (NotFound "nginx")] /\
  getaccess Sample.cfg (Some "db") (inl [Sample.web; Sample.db]) "s1" 0 0 0
    Sample.issued =
    Ok tt Sample.issued [FxRespond (NotRunning "db" "exited")].
Proof.
  split.
  - refine (proj1 (access_refused Sample.cfg Sample.issued "nginx"
                     [Sample.web; Sample.db] "s1" 0 0 0 _) _).
    + discriminate.
    + repeat constructor.
  - refine (proj2 (access_refused Sample.cfg Sample.issued "db"
                     [Sample.web; Sample.db] "s1" 0 0 0 _) Sample.db _ _).
    + discriminate.
    + reflexivity.
    + discriminate.
Defined.


Lemma attach_ignores_containerName_claim_witness :
  handle Sample.cfg Sample.parse
    (Connection 1 (Some (Sample.token_for "web" "s1")) 1000) Sample.issued =
  handle Sample.cfg Sample.parse
    (Connection 1 (Some Sample.token_db_s1) 2000) Sample.issued /\
  forall info,
    sockets Sample.issued !! 1%nat = None ->
    activeSessions Sample.issued !! "s1" = Some info ->
    calls (handle Sample.cfg Sample.parse
             (Connection 1 (Some (Sample.token_for "web" "s1")) 1000) Sample.issued) =
      [FxExec 1 (containerId info)].
Proof.
  refine (attach_ignores_containerName_claim Sample.cfg Sample.parse Sample.issued 1
            (Sample.token_for "web" "s1") Sample.token_db_s1 1000 2000
            {| claims := {| containerName := "web"; sessionId := "s1";
                            type := "terminal-access" |};
               iat := 0; exp := 300 |}
            {| claims := {| containerName := "db"; sessionId := "s1";
                            type := "terminal-access" |};
               iat := 0; exp := 300 |}
            _ _ _).
  - reflexivity.
  - reflexivity.
  - reflexivity.
Defined.

(** * Further properties *)

(** ** The API key check *)

Lemma prefix_append (p s : string) : String.prefix p (String.append p s) = true.
Proof.
  induction p as [|c p IH]; [by destruct s|].
  rewrite append_cons. simpl. destruct (Ascii.ascii_dec c c); [apply IH|done].
Qed.

Lemma skip_append (p s : string) :
  Str.skip (String.length p) (String.append p s) = s.
Proof. induction p as [|c p IH]; [by destruct s|]. by rewrite append_cons. Qed.

Lemma replace_unfold (s pat rep : string) :
  Str.replace s pat rep =
  if String.prefix pat s
  then String.append rep (Str.skip (String.length pat) s)
  else match s with
       | "" => ""
       | String c s' => String c (Str.replace s' pat rep)
       end.
Proof. by destruct s. Qed.

Lemma replace_prefix (p s : string) : Str.replace (String.append p s) p "" = s.
Proof. by rewrite replace_unfold, prefix_append, append_empty_l, skip_append. Qed.

Lemma or_else_Some (a b : option string) (k : string) :
  Str.or_else a b = Some k -> k <> "" -> a = Some k \/ b = Some k.
Proof. destruct a as [[|c a]|]; simpl; intros; auto. Qed.

Lemma existsb_eqb_elem (k : string) (keys : list string) :
  existsb (String.eqb k) keys = true <-> k ∈ keys.
Proof.
  rewrite existsb_exists. split.
  - intros (x & Hin & ->%String.eqb_eq). by apply list_elem_of_In.
  - intros Hin. exists k. split; [by apply list_elem_of_In|apply String.eqb_refl].
Qed.

(** X1: with the check on, a request is let through only on a listed,
    non-empty key that it carries in the [X-API-Key] header, in the
    [Authorization] header once its first ["Bearer "] is removed, or in
    the [apiKey] parameter. *)
Theorem auth_admits_only_listed_keys (st : Settings) (req : Request) :
  REQUIRE_AUTH st = true ->
  authenticateApiKey st req = Next ->
  exists apiKey,
    apiKey <> "" /\ apiKey ∈ API_KEYS st /\
    (x_api_key req = Some apiKey \/
     (exists value, authorization req = Some value /\
                    apiKey = Str.replace value "Bearer " "") \/
     q_apiKey req = Some apiKey).
Proof.
  intros Hon. unfold authenticateApiKey. rewrite Hon. simpl.
  destruct (presented_key req) as [[|c k]|] eqn:Hkey; try discriminate.
  destruct (existsb _ _) eqn:Hin; [|discriminate]. intros _.
  exists (String c k). split; [done|]. split; [by apply existsb_eqb_elem|].
  unfold presented_key in Hkey.
  apply or_else_Some in Hkey as [?|Hkey]; [by left|..|done].
  apply or_else_Some in Hkey as [Hkey|?]; [|by right; right|done].
  right; left. destruct (authorization req) as [value|]; [|discriminate].
  exists value. split; [done|]. by injection Hkey.
Qed.

Lemma auth_admits_only_listed_keys_witness :
  exists apiKey,
    apiKey <> "" /\ apiKey ∈ API_KEYS Fixture.settings /\
    (x_api_key Fixture.bearer = Some apiKey \/
     (exists value, authorization Fixture.bearer = Some value /\
                    apiKey = Str.replace value "Bearer " "") \/
     q_apiKey Fixture.bearer = Some apiKey).
Proof.
  refine (auth_admits_only_listed_keys Fixture.settings Fixture.bearer _ _);
    reflexivity.
Defined.

(** X2: a non-empty [X-API-Key] header that is not a listed key is
    answered 403, whatever the [Authorization] header and the [apiKey]
    parameter carry. *)
Theorem auth_header_shadows_other_keys (st : Settings) (req : Request) (k : string) :
  REQUIRE_AUTH st = true ->
  x_api_key req = Some k ->
  k <> "" ->
  k ∉ API_KEYS st ->
  authenticateApiKey st req = Respond Forbidden.
Proof.
  intros Hon Hk Hne Hnot. unfold authenticateApiKey, presented_key.
  rewrite Hon, Hk. destruct k as [|c k]; [done|]. cbv [Str.or_else negb].
  destruct (existsb _ _) eqn:Hin; [|done].
  by apply existsb_eqb_elem in Hin.
Qed.

Lemma auth_header_shadows_other_keys_witness :
  authenticateApiKey Fixture.settings Fixture.shadowed = Respond Forbidden.
Proof.
  refine (auth_header_shadows_other_keys Fixture.settings Fixture.shadowed "wrong"
            _ _ _ _).
  - reflexivity.
  - reflexivity.
  - discriminate.
  - intros Hin. repeat (apply elem_of_cons in Hin as [Hin|Hin]; [discriminate|]).
    by apply elem_of_nil in Hin.
Defined.

(** X3: without an [X-API-Key] header, [Authorization: Bearer k] with a
    listed, non-empty [k] is let through; and when no key is presented at
    all the answer is 401, even if the empty string is a listed key. *)
Theorem auth_bearer_and_missing_key (st : Settings) (req : Request) :
  REQUIRE_AUTH st = true ->
  Str.or_else (x_api_key req) None = None ->
  (forall k, authorization req = Some (String.append "Bearer " k) ->
             k <> "" -> k ∈ API_KEYS st ->
             authenticateApiKey st req = Next) /\
  (Str.or_else (authorization req) None = None ->
   Str.or_else (q_apiKey req) None = None ->
   authenticateApiKey st req = Respond Unauthorized).
Proof.
  intros Hon Hx. unfold authenticateApiKey, presented_key. rewrite Hon. simpl.
  assert (forall b, Str.or_else (x_api_key req) b = b) as ->.
  { intros b. by destruct (x_api_key req) as [[|? ?]|]. }
  split.
  - intros k -> Hne Hin. cbv [fmap option_fmap option_map].
    rewrite (replace_prefix "Bearer " k).
    destruct k as [|c k]; [done|]. cbv [Str.or_else].
    apply existsb_eqb_elem in Hin. by rewrite Hin.
  - intros Ha Hq.
    destruct (authorization req) as [[|? ?]|]; try discriminate;
      destruct (q_apiKey req) as [[|? ?]|]; try discriminate; reflexivity.
Qed.

Lemma auth_bearer_and_missing_key_witness :
  authenticateApiKey Fixture.settings Fixture.bearer = Next /\
  authenticateApiKey Fixture.settings Fixture.bare = Respond Unauthorized.
Proof.
  split.
  - refine (proj1 (auth_bearer_and_missing_key Fixture.settings Fixture.bearer _ _)
              "beta" _ _ _).
    + reflexivity.
    + reflexivity.
    + reflexivity.
    + discriminate.
    + apply elem_of_cons. right. apply elem_of_cons. by left.
  - refine (proj2 (auth_bearer_and_missing_key Fixture.settings Fixture.bare _ _) _ _);
      reflexivity.
Defined.

(** X4: a request the key check refuses gets its 401 or 403 and nothing
    else happens: no container is looked up, no token is signed and the
    server state, registry included, is as before. *)
Theorem refused_request_changes_nothing
  (st : Settings) (cfg : Config) (req : Request) (res : Response)
  (listing : list ContainerInfo + string) (uuid : string)
  (t_sign t_set t_sweep : Z) (s : Server) :
  authenticateApiKey st req = Respond res ->
  route_getaccess st cfg req listing uuid t_sign t_set t_sweep s =
    Ok tt s [FxRespond res] /\
  (res = Unauthorized \/ res = Forbidden).
Proof.
  intros Hres. unfold route_getaccess. rewrite Hres. split; [reflexivity|].
  unfold authenticateApiKey in Hres.
  destruct (negb (REQUIRE_AUTH st)); [discriminate|].
  destruct (presented_key req) as [[|c k]|]; try (left; congruence).
  destruct (negb _); [right; congruence|discriminate].
Qed.

Lemma refused_request_changes_nothing_witness :
  route_getaccess Fixture.settings Sample.cfg Fixture.shadowed
    (inl [Sample.web]) "s9" 0 0 0 Sample.issued =
    Ok tt Sample.issued [FxRespond Forbidden] /\
  (Forbidden = Unauthorized \/ Forbidden = Forbidden).
Proof.
  refine (refused_request_changes_nothing Fixture.settings Sample.cfg Fixture.shadowed
            Forbidden (inl [Sample.web]) "s9" 0 0 0 Sample.issued _).
  reflexivity.
Defined.

(** ** Splitting, the configured keys and the connection URL *)

Lemma includes_cons (c sep : ascii) (s : string) :
  Js.includes (String c s) (String sep "") = Ascii.eqb c sep || Js.includes s (String sep "").
Proof.
  simpl. destruct (Ascii.ascii_dec sep c) as [->|Hne].
  - rewrite Ascii.eqb_refl. by destruct s.
  - destruct (Ascii.eqb_spec c sep); [congruence|done].
Qed.

Lemma includes_empty (sep : ascii) : Js.includes "" (String sep "") = false.
Proof. reflexivity. Qed.

Lemma split_nonempty (sep : ascii) (s : string) : Str.split sep s <> [].
Proof.
  destruct s as [|c s]; simpl; [done|].
  destruct (Ascii.eqb c sep); [done|]. by destruct (Str.split sep s).
Qed.

Lemma split_without_sep (sep : ascii) (s : string) :
  Js.includes s (String sep "") = false -> Str.split sep s = [s].
Proof.
  induction s as [|c s IH]; [done|].
  rewrite includes_cons. intros [Hc Hs]%orb_false_elim.
  simpl. by rewrite Hc, (IH Hs).
Qed.

Lemma split_append (sep : ascii) (name rest : string) :
  Js.includes name (String sep "") = false ->
  Str.split sep (String.append name (String sep rest)) = name :: Str.split sep rest.
Proof.
  induction name as [|c name IH].
  - intros _. rewrite append_empty_l. simpl. by rewrite Ascii.eqb_refl.
  - rewrite includes_cons. intros [Hc Hs]%orb_false_elim.
    rewrite append_cons. simpl. by rewrite Hc, (IH Hs).
Qed.

Lemma split_parts_without_sep (sep : ascii) (s : string) :
  Forall (fun part => Js.includes part (String sep "") = false) (Str.split sep s).
Proof.
  induction s as [|c s IH]; simpl; [by repeat constructor|].
  destruct (Ascii.eqb c sep) eqn:Hc; [by constructor|].
  pose proof (split_nonempty sep s).
  destruct (Str.split sep s) as [|p ps]; [done|].
  inversion IH as [|? ? Hp Hps]; subst. constructor; [|done].
  by rewrite includes_cons, Hc.
Qed.

Lemma join_split (sep : ascii) (s : string) : Str.join sep (Str.split sep s) = s.
Proof.
  induction s as [|c s IH]; [done|]. simpl.
  destruct (Ascii.eqb_spec c sep) as [->|Hne].
  - pose proof (split_nonempty sep s).
    destruct (Str.split sep s) as [|p ps]; [done|].
    change (Str.join sep ("" :: p :: ps))
      with (String.append "" (String sep (Str.join sep (p :: ps)))).
    by rewrite append_empty_l, IH.
  - pose proof (split_nonempty sep s).
    destruct (Str.split sep s) as [|p [|q ps]]; [done|..].
    + simpl in *. by rewrite IH.
    + change (Str.join sep (String c p :: q :: ps))
        with (String.append (String c p) (String sep (Str.join sep (q :: ps)))).
      rewrite append_cons. f_equal. exact IH.
Qed.

(** X5: the configured keys are the pieces of [API_KEYS] between its
    commas, taken as they are: joined by commas they give the variable
    back, so nothing is trimmed or dropped, and no key holds a comma. *)
Theorem API_KEYS_verbatim (keys : string) :
  keys <> "" ->
  Str.join "," (API_KEYS_from (Some keys)) = keys /\
  Forall (fun k => Js.includes k "," = false) (API_KEYS_from (Some keys)).
Proof.
  intros Hne. unfold API_KEYS_from. destruct keys as [|c keys]; [done|].
  split; [apply join_split|apply split_parts_without_sep].
Qed.

Lemma API_KEYS_verbatim_witness :
  Str.join "," (API_KEYS_from (Some "alpha, beta,,gamma")) = "alpha, beta,,gamma" /\
  Forall (fun k => Js.includes k "," = false)
    (API_KEYS_from (Some "alpha, beta,,gamma")).
Proof. refine (API_KEYS_verbatim "alpha, beta,,gamma" _). discriminate. Defined.

(** X6: a host without a colon is kept; [name:80] and [name:443] become
    [name]; [name:port] with any other port is kept whole. *)
Theorem standard_port_stripped (name port : string) :
  Js.includes name ":" = false ->
  Js.includes port ":" = false ->
  strip_standard_port name = name /\
  strip_standard_port (String.append name (String ":" port)) =
    if String.eqb port "80" || String.eqb port "443"
    then name
    else String.append name (String ":" port).
Proof.
  intros Hname Hport. unfold strip_standard_port. split; [by rewrite Hname|].
  assert (Js.includes (String.append name (String ":" port)) ":" = true) as ->.
  { clear Hport. induction name as [|c name IH].
    - rewrite append_empty_l. by rewrite includes_cons.
    - rewrite append_cons, includes_cons. rewrite includes_cons in Hname.
      apply orb_false_elim in Hname as [_ Hname]. rewrite (IH Hname).
      apply orb_true_r. }
  rewrite (split_append ":" name port Hname), (split_without_sep ":" port Hport).
  reflexivity.
Qed.

Lemma standard_port_stripped_witness :
  strip_standard_port "gateway.example" = "gateway.example" /\
  strip_standard_port "gateway.example:443" = "gateway.example".
Proof.
  refine (standard_port_stripped "gateway.example" "443" _ _); reflexivity.
Defined.

Lemma strip_standard_port_cases (host : string) :
  strip_standard_port host = host \/
  Js.includes (strip_standard_port host) ":" = false.
Proof.
  unfold strip_standard_port.
  destruct (Js.includes host ":") eqn:Hcolon; [|by left].
  destruct (Str.split ":" host !! 1%nat) as [port|]; [|by left].
  destruct (String.eqb port "80" || String.eqb port "443"); [|by left].
  pose proof (split_parts_without_sep ":" host) as Hparts.
  destruct (Str.split ":" host) as [|name parts]; [by left|].
  right. by inversion Hparts.
Qed.

(** X7: the port handling is idempotent: what it returns, it leaves
    alone. *)
Theorem strip_standard_port_idempotent (host : string) :
  strip_standard_port (strip_standard_port host) = strip_standard_port host.
Proof.
  destruct (strip_standard_port_cases host) as [Hsame|Hfree].
  - by rewrite Hsame.
  - unfold strip_standard_port at 1. by rewrite Hfree.
Qed.

(** X8: the scheme of the URL is [wss] exactly when the
    [X-Forwarded-Proto] header, or [PROTOCOL] when the header is missing
    or empty, is [https], and [ws] otherwise; so without the header both
    [PROTOCOL=ws] and [PROTOCOL=wss] give [ws]. *)
Theorem wsProtocol_follows_https (st : Settings) (req : Request) :
  (wsProtocol st req = "wss" \/ wsProtocol st req = "ws") /\
  (forall proto, x_forwarded_proto req = Some proto -> proto <> "" ->
     (wsProtocol st req = "wss" <-> proto = "https")) /\
  (Str.or_else (x_forwarded_proto req) None = None ->
     (wsProtocol st req = "wss" <-> PROTOCOL st = "https") /\
     (PROTOCOL st = "ws" \/ PROTOCOL st = "wss" -> wsProtocol st req = "ws")).
Proof.
  unfold wsProtocol. split; [|split].
  - destruct (x_forwarded_proto req) as [[|c p]|];
      by destruct (String.eqb _ "https"); auto.
  - intros proto -> Hne. destruct proto as [|c p]; [done|].
    destruct (String.eqb_spec (String c p) "https") as [->|Hn]; [done|].
    split; [discriminate|done].
  - intros Hnone.
    assert (match x_forwarded_proto req with
            | Some (String _ _ as proto) => proto
            | _ => PROTOCOL st
            end = PROTOCOL st) as ->.
    { by destruct (x_forwarded_proto req) as [[|c p]|]. }
    split.
    + destruct (String.eqb_spec (PROTOCOL st) "https") as [->|Hn]; [done|].
      split; [discriminate|done].
    + intros [->| ->]; reflexivity.
Qed.

Lemma wsProtocol_follows_https_witness :
  wsProtocol Fixture.settings Fixture.bare = "ws" /\
  wsProtocol Fixture.settings Fixture.bearer = "wss".
Proof.
  split.
  - refine (proj2 (proj2 (proj2 (wsProtocol_follows_https Fixture.settings Fixture.bare))
                     _) _).
    + reflexivity.
    + by right.
  - refine (proj2 (proj1 (proj2 (wsProtocol_follows_https Fixture.settings Fixture.bearer))
                     "https" _ _) _).
    + reflexivity.
    + discriminate.
    + reflexivity.
Defined.

(** ** Tokens, container lookup and the registry *)

(** X9: a token made by [generateToken] verifies, giving back its claims
    with the issue and expiry seconds, at any clock reading whose second
    is before the expiry second, and fails to verify from the expiry
    second on. *)
Theorem token_valid_until_expiry
  (cfg : Config) (name sid : string) (t now : Z) :
  verifyToken cfg (generateToken cfg name sid t) now =
  if now / 1000 <? t / 1000 + TOKEN_EXPIRY cfg
  then Some {| claims := {| containerName := name; sessionId := sid;
                            type := "terminal-access" |};
               iat := t / 1000;
               exp := t / 1000 + TOKEN_EXPIRY cfg |}
  else None.
Proof.
  unfold verifyToken, generateToken, jwt.sign, jwt.verify.
  rewrite String.eqb_refl. simpl.
  destruct (Z.leb_spec (t / 1000 + TOKEN_EXPIRY cfg) (now / 1000));
    destruct (Z.ltb_spec (now / 1000) (t / 1000 + TOKEN_EXPIRY cfg)); (done || lia).
Qed.

(** X10: a request without a [containerName], or with an empty one, is
    answered 400 before the runtime is asked anything; when the listing
    of containers fails the answer is 500 with the runtime's message; the
    server state is unchanged in both cases. *)
Theorem access_bad_request_or_runtime_error
  (cfg : Config) (listing : list ContainerInfo + string) (uuid : string)
  (t_sign t_set t_sweep : Z) (s : Server) :
  getaccess cfg None listing uuid t_sign t_set t_sweep s =
    Ok tt s [FxRespond InvalidRequest] /\
  getaccess cfg (Some "") listing uuid t_sign t_set t_sweep s =
    Ok tt s [FxRespond InvalidRequest] /\
  forall name message,
    name <> "" ->
    getaccess cfg (Some name) (inr message) uuid t_sign t_set t_sweep s =
      Ok tt s [FxRespond (Failure 500 message)].
Proof.
  split; [reflexivity|]. split; [reflexivity|].
  intros name message Hname. by destruct name.
Qed.

Lemma access_bad_request_or_runtime_error_witness :
  getaccess Sample.cfg (Some "web") (inr "connect ENOENT /var/run/docker.sock")
    "s9" 0 0 0 Sample.issued =
  Ok tt Sample.issued [FxRespond (Failure 500 "connect ENOENT /var/run/docker.sock")].
Proof.
  refine (proj2 (proj2 (access_bad_request_or_runtime_error Sample.cfg
            (inr "connect ENOENT /var/run/docker.sock") "s9" 0 0 0 Sample.issued))
            "web" "connect ENOENT /var/run/docker.sock" _).
  discriminate.
Defined.

Lemma find_first_match {A} (f : A -> bool) (pre post : list A) (x : A) :
  Forall (fun y => f y = false) pre -> f x = true ->
  List.find f (pre ++ x :: post)%list = Some x.
Proof.
  induction 1 as [|y pre Hy _ IH]; intros Hx; simpl.
  - by rewrite Hx.
  - rewrite Hy. by apply IH.
Qed.

(** X11: the request is decided by the first container of the listing
    that matches the name: the containers after it, running or not, and
    better matches among them, make no difference. *)
Theorem access_decided_by_first_match
  (cfg : Config) (name : string) (pre post : list ContainerInfo) (c : ContainerInfo)
  (uuid : string) (t_sign t_set t_sweep : Z) (s : Server) :
  Forall (fun c' => matches name c' = false) pre ->
  matches name c = true ->
  getaccess cfg (Some name) (inl (pre ++ c :: post)%list) uuid t_sign t_set t_sweep s =
  getaccess cfg (Some name) (inl [c]) uuid t_sign t_set t_sweep s.
Proof.
  intros Hpre Hc. unfold getaccess. monad.
  destruct name as [|a name]; [done|].
  rewrite (find_first_match _ pre post c Hpre Hc). simpl. by rewrite Hc.
Qed.

Lemma access_decided_by_first_match_witness :
  getaccess Sample.cfg (Some "web") (inl ([Sample.db] ++ Fixture.old :: [Sample.web])%list)
    "s9" 0 0 0 Sample.idle =
  getaccess Sample.cfg (Some "web") (inl [Fixture.old]) "s9" 0 0 0 Sample.idle.
Proof.
  refine (access_decided_by_first_match Sample.cfg "web" [Sample.db] [Sample.web]
            Fixture.old "s9" 0 0 0 Sample.idle _ _).
  - repeat constructor.
  - reflexivity.
Defined.

Lemma prefix_iff (p s : string) :
  String.prefix p s = true <-> exists rest, s = String.append p rest.
Proof.
  revert s. induction p as [|c p IH]; intros s.
  - split; [|by destruct s]. intros _. by exists s.
  - destruct s as [|d s]; simpl.
    + split; [discriminate|]. intros [rest Hrest]. by rewrite append_cons in Hrest.
    + destruct (Ascii.ascii_dec c d) as [->|Hne].
      * rewrite IH. split; intros [rest Hrest]; exists rest.
        -- by rewrite append_cons, Hrest.
        -- rewrite append_cons in Hrest. by injection Hrest.
      * split; [discriminate|]. intros [rest Hrest].
        rewrite append_cons in Hrest. by injection Hrest.
Qed.

Lemma includes_unfold (s p : string) :
  Js.includes s p =
  String.prefix p s || match s with
                       | "" => false
                       | String _ s' => Js.includes s' p
                       end.
Proof. by destruct s. Qed.

Lemma includes_iff (s p : string) :
  Js.includes s p = true <->
  exists pre post, s = String.append pre (String.append p post).
Proof.
  induction s as [|c s IH]; rewrite includes_unfold.
  - rewrite orb_false_r, prefix_iff. split.
    + intros [rest Hrest]. by exists "", rest.
    + intros ([|d pre] & post & Hs); [by exists post|].
      by rewrite append_cons in Hs.
  - rewrite orb_true_iff, IH, prefix_iff. split.
    + intros [[rest Hrest]|(pre & post & ->)].
      * by exists "", rest.
      * by exists (String c pre), post.
    + intros ([|d pre] & post & Hs).
      * left. by exists post.
      * right. rewrite append_cons in Hs. injection Hs as -> ->.
        by exists pre, post.
Qed.

(** X12: a container matches a reference exactly when its id starts
    with it or one of its names contains it. *)
Theorem matches_prefix_or_substring (ref : string) (c : ContainerInfo) :
  matches ref c = true <->
  (exists rest, Id c = String.append ref rest) \/
  (exists name pre post,
     name ∈ Names c /\ name = String.append pre (String.append ref post)).
Proof.
  unfold matches, Js.startsWith.
  rewrite orb_true_iff, prefix_iff, existsb_exists. split.
  - intros [(name & Hin & Hinc)|Hid]; [right|by left].
    apply includes_iff in Hinc as (pre & post & ->).
    eexists _, pre, post. split; [by apply list_elem_of_In|done].
  - intros [Hid|(name & pre & post & Hin & ->)]; [by right|left].
    eexists. split; [by apply list_elem_of_In|].
    apply includes_iff. by exists pre, post.
Qed.

(** ** What changes the registry *)

Section Registry.

Context (cfg : Config) (JSON_parse : string -> option Js.Value).

Lemma getaccess_sessions (name : option string)
  (listing : list ContainerInfo + string) (uuid : string)
  (t_sign t_set t_sweep : Z) (s : Server) :
  let s' := final (getaccess cfg name listing uuid t_sign t_set t_sweep s) in
  activeSessions s' = activeSessions s \/
  exists info,
    activeSessions s' =
    filter (fun entry : string * Session => ¬ (createdAt entry.2 < t_sweep - 600000))
      (<[uuid := info]> (activeSessions s)).
Proof.
  unfold getaccess. monad.
  destruct name as [[|a name]|]; simpl; try by left.
  destruct listing as [containers|message]; simpl; try by left.
  destruct (List.find _ containers) as [c|]; simpl; try by left.
  destruct (negb _); simpl; [by left|]. right. by eexists.
Qed.

(** X13: a successful request leaves in the registry only sessions
    created within the ten minutes before its sweep, and of the sessions
    under other ids it keeps exactly those, untouched. *)
Theorem issuance_sweeps_stale_sessions
  (s : Server) (name : string) (containers : list ContainerInfo)
  (c : ContainerInfo) (uuid : string) (t_sign t_set t_sweep : Z) :
  name <> "" ->
  List.find (matches name) containers = Some c ->
  State c = "running" ->
  let s' := final (getaccess cfg (Some name) (inl containers) uuid
                     t_sign t_set t_sweep s) in
  (forall sid info,
     activeSessions s' !! sid = Some info -> t_sweep - 600000 <= createdAt info) /\
  (forall sid info,
     sid <> uuid ->
     activeSessions s' !! sid = Some info <->
     activeSessions s !! sid = Some info /\ t_sweep - 600000 <= createdAt info).
Proof.
  intros Hname Hc Hstate. unfold getaccess. monad.
  destruct name as [|a name]; [done|]. rewrite Hc, Hstate. simpl. split.
  - intros sid info [_ Hfresh]%map_lookup_filter_Some. simpl in Hfresh. lia.
  - intros sid info Hne. rewrite map_lookup_filter_Some, lookup_insert_ne by done.
    simpl. split; intros [? ?]; split; (done || lia).
Qed.

Lemma handle_sessions_subseteq (e : Event) (s : Server) :
  is_getaccess e = false ->
  activeSessions (final (handle cfg JSON_parse e s)) ⊆ activeSessions s.
Proof.
  intros He. destruct e; try discriminate; crunch; try done; apply delete_subseteq.
Qed.

Lemma getaccess_health (name : option string)
  (listing : list ContainerInfo + string) (uuid : string)
  (t_sign t_set t_sweep : Z) (s : Server) :
  (health (final (getaccess cfg name listing uuid t_sign t_set t_sweep s))
   <= S (health s))%nat.
Proof.
  unfold health.
  destruct (getaccess_sessions name listing uuid t_sign t_set t_sweep s)
    as [->|[info ->]]; [lia|].
  etrans; [apply map_subseteq_size, map_filter_subseteq|].
  destruct (activeSessions s !! uuid) eqn:E.
  - rewrite map_size_insert_Some by done. lia.
  - by rewrite map_size_insert_None.
Qed.

(** X14: over any run the [/health] count of active sessions grows by at
    most the number of access requests handled. *)
Theorem health_bounded_by_requests (events : list Event) (s : Server) :
  (health (final (run cfg JSON_parse events s))
   <= health s + length (List.filter is_getaccess events))%nat.
Proof.
  revert s. induction events as [|e events IH]; intros s; [simpl; lia|].
  rewrite final_run_cons. etrans; [apply IH|]. simpl.
  destruct (is_getaccess e) eqn:He; simpl.
  - destruct e as [name listing uuid t1 t2 t3| | | | | | | | |]; try discriminate.
    pose proof (getaccess_health name listing uuid t1 t2 t3 s). simpl. lia.
  - pose proof (map_subseteq_size _ _ (handle_sessions_subseteq e s He)).
    unfold health. lia.
Qed.

(** X15: the events of sockets and streams never add a session nor
    change one: after a run without access requests every registry entry
    was there before. *)
Theorem socket_events_add_no_session (events : list Event) (s : Server) :
  forallb (fun e => negb (is_getaccess e)) events = true ->
  activeSessions (final (run cfg JSON_parse events s)) ⊆ activeSessions s.
Proof.
  revert s. induction events as [|e events IH]; intros s Hev; [done|].
  simpl in Hev. apply andb_prop in Hev as [He Hev]. apply negb_true_iff in He.
  rewrite final_run_cons. etrans; [by apply IH|]. by apply handle_sessions_subseteq.
Qed.

End Registry.

Lemma issuance_sweeps_stale_sessions_witness :
  let s' := final (getaccess Sample.cfg_1h (Some "web") (inl [Sample.web; Sample.db])
                     "s2" 700000 700000 700000 Sample.issued) in
  (forall sid info,
     activeSessions s' !! sid = Some info -> 700000 - 600000 <= createdAt info) /\
  (forall sid info,
     sid <> "s2" ->
     activeSessions s' !! sid = Some info <->
     activeSessions Sample.issued !! sid = Some info /\
     700000 - 600000 <= createdAt info).
Proof.
  refine (issuance_sweeps_stale_sessions Sample.cfg_1h Sample.issued "web" [Sample.web; Sample.db]
            Sample.web "s2" 700000 700000 700000 _ _ _).
  - discriminate.
  - reflexivity.
  - reflexivity.
Defined.

Lemma socket_events_add_no_session_witness :
  activeSessions
    (final (run Sample.cfg Sample.parse
              [Connection 2 (Some (Sample.token_for "web" "s1")) 2000; ExecStarted 2;
               WsMessage 1 (Buffer_from "ls"); WsClose 1]
              Sample.streaming))
  ⊆ activeSessions Sample.streaming.
Proof.
  refine (socket_events_add_no_session Sample.cfg Sample.parse _ Sample.streaming _).
  reflexivity.
Defined.

(** ** Connections and bridges over a run *)

Section Bridges.

Context (cfg : Config) (JSON_parse : string -> option Js.Value).

(** X16: a connection without a [token] parameter, or with an empty one,
    is sent the one frame ["No token provided"] and closed; no exec is
    requested and the registry is not consulted or changed. *)
Theorem missing_token_rejected
  (s : Server) (ws : nat) (token : option Token) (now : Z) :
  sockets s !! ws = None ->
  no_token token = true ->
  handle cfg JSON_parse (Connection ws token now) s =
  Ok tt (rejected ws s) [FxSend ws (ErrorFrame "No token provided"); FxClose ws].
Proof.
  intros Hws Htok. unfold handle. monad. rewrite Hws.
  destruct token as [[[|c str]|key p i e]|]; try discriminate;
    crunch; by rewrite alter_insert_eq.
Qed.

Lemma handle_exec_source
  (e : Event) (s : Server) (ws : nat) (container : string) :
  In (FxExec ws container) (calls (handle cfg JSON_parse e s)) ->
  exists tok now d info,
    e = Connection ws (Some tok) now /\
    sockets s !! ws = None /\
    verifyToken cfg tok now = Some d /\
    activeSessions s !! sessionId (claims d) = Some info /\
    containerId info = container.
Proof.
  destruct e; crunch; intros Hin; simpl in Hin; try done;
    repeat (destruct Hin as [Hin|Hin]; try discriminate; try done).
  injection Hin as ? ?. subst. by eexists _, _, _, _.
Qed.

(** X17: an exec is requested in one situation only: a socket connects
    with a token that verifies and whose session id is in the registry,
    and the exec is for the container id of that entry. *)
Theorem exec_needs_token_and_session
  (e : Event) (s : Server) (ws : nat) (container : string) :
  In (FxExec ws container) (calls (handle cfg JSON_parse e s)) ->
  exists tok now d info,
    e = Connection ws (Some tok) now /\
    sockets s !! ws = None /\
    verifyToken cfg tok now = Some d /\
    activeSessions s !! sessionId (claims d) = Some info /\
    containerId info = container.
Proof. apply handle_exec_source. Qed.

Lemma handle_registry_ok (ok : string -> Prop) (e : Event) (s : Server) :
  registry_ok ok s -> grants ok e ->
  registry_ok ok (final (handle cfg JSON_parse e s)).
Proof.
  intros Hs He. destruct (is_getaccess e) eqn:Hget.
  - destruct e as [name0 listing uuid t_sign t_set t_sweep| | | | | | | | |];
      try discriminate. simpl in *. unfold getaccess. monad.
    destruct name0 as [[|a name]|]; simpl; try done.
    destruct listing as [containers|message]; simpl; try done.
    destruct (List.find _ containers) as [c|] eqn:Hc; simpl; try done.
    destruct (String.eqb_spec (State c) "running") as [Hrun|?]; simpl; try done.
    intros sid info [Hin _]%map_lookup_filter_Some. simpl in Hin.
    destruct (decide (uuid = sid)) as [->|Hne].
    + rewrite lookup_insert_eq in Hin. injection Hin as <-. simpl. by apply He.
    + rewrite lookup_insert_ne in Hin by done. by apply (Hs sid).
  - intros sid info Hin. apply (Hs sid).
    by apply (lookup_weaken _ _ _ _ Hin), handle_sessions_subseteq.
Qed.

(** X18: if every container id in the registry satisfies a property,
    and every container that the access requests of a run find running
    does, then every exec of the run is requested on a container that
    satisfies it: the gateway attaches to nothing but containers that a
    request found running. *)
Theorem execs_only_on_granted_containers
  (ok : string -> Prop) (events : list Event) (s : Server) :
  registry_ok ok s ->
  Forall (grants ok) events ->
  forall ws container,
    In (FxExec ws container) (calls (run cfg JSON_parse events s)) -> ok container.
Proof.
  intros Hs Hev. revert s Hs.
  induction Hev as [|e events He _ IH]; intros s Hs ws container; [done|].
  rewrite calls_run_cons. intros [Hin|Hin]%in_app_or.
  - apply handle_exec_source in Hin
      as (tok & now & d & info & _ & _ & _ & Hinfo & <-).
    by apply (Hs _ _ Hinfo).
  - apply (IH _ (handle_registry_ok ok e s Hs He) ws container Hin).
Qed.

(** What one event does to a socket the server has seen, and when it
    can have sent frames on it. *)
Lemma handle_socket_step (e : Event) (s : Server) (ws : nat) (c : Socket) :
  sockets s !! ws = Some c ->
  exists c',
    sockets (final (handle cfg JSON_parse e s)) !! ws = Some c' /\
    socket_step c c' /\
    (readyState c <> OPEN ->
     List.filter (is_send ws) (calls (handle cfg JSON_parse e s)) = []).
Proof.
  intros Hc. destruct c as [r b].
  destruct e as [| ws' | ws' | ws' | ws' | ws' | ws' | ws' | ws' | ws'];
    [crunch; eexists; (split; [done|]); split; (done || constructor)|..];
    destruct (decide (ws' = ws)) as [->|Hne]; crunch.
  all: try (eexists; (split; [done|]); split; [by constructor|]; intros; simpl;
            try done; destruct (Nat.eqb_spec ws' ws); simplify_eq; done).
Qed.

Lemma handle_closed (e : Event) (s : Server) (ws : nat) (c : Socket) :
  sockets s !! ws = Some c ->
  readyState c = CLOSED ->
  (exists c', sockets (final (handle cfg JSON_parse e s)) !! ws = Some c' /\
              readyState c' = CLOSED) /\
  List.filter (is_send ws) (calls (handle cfg JSON_parse e s)) = [].
Proof.
  intros Hc Hr. destruct (handle_socket_step e s ws c Hc) as (c' & Hc' & Hstep & Hsend).
  split; [|apply Hsend; congruence].
  exists c'. split; [done|]. inversion Hstep; subst; simpl in *; congruence.
Qed.

Lemma handle_bound (e : Event) (s : Server) (ws : nat) (sid : string)
  (ended : bool) :
  bridge_of s ws = Streaming sid ended ->
  exists ended',
    bridge_of (final (handle cfg JSON_parse e s)) ws = Streaming sid ended' /\
    (ended = true -> ended' = true).
Proof.
  unfold bridge_of, socket_of. intros Hb.
  destruct (sockets s !! ws) as [c|] eqn:Hc; [|discriminate].
  destruct (handle_socket_step e s ws c Hc) as (c' & -> & Hstep & _).
  inversion Hstep; subst; simpl in *; simplify_eq; eauto.
Qed.

(** X20: a bridge stays bound to its session: once the handlers of a
    socket are registered for a session id, they are registered for that
    id after any run, and a stream that was ended stays ended. *)
Theorem bridge_stays_bound
  (events : list Event) (s : Server) (ws : nat) (sid : string) (ended : bool) :
  bridge_of s ws = Streaming sid ended ->
  exists ended',
    bridge_of (final (run cfg JSON_parse events s)) ws = Streaming sid ended' /\
    (ended = true -> ended' = true).
Proof.
  revert s ended. induction events as [|e events IH]; intros s ended Hb.
  - by exists ended.
  - rewrite final_run_cons.
    destruct (handle_bound e s ws sid ended Hb) as (ended1 & Hb1 & H1).
    destruct (IH _ ended1 Hb1) as (ended2 & Hb2 & H2).
    exists ended2. split; [done|]. auto.
Qed.

Lemma handle_closed_concerns (e : Event) (s : Server) (ws : nat) (c : Socket) :
  sockets s !! ws = Some c ->
  readyState c = CLOSED ->
  concerns ws e = true ->
  activeSessions (final (handle cfg JSON_parse e s)) = activeSessions s /\
  forall sid, deletions sid (calls (handle cfg JSON_parse e s)) = 0%nat.
Proof.
  intros Hc Hr He.
  destruct e; simpl in He; try discriminate; apply Nat.eqb_eq in He as ->; crunch.
Qed.

(** X22: when a socket closes while its exec is still being attached,
    no close handler is registered yet; whatever happens on that socket
    afterwards, the exec starting and its stream ending included, the
    session is not deleted and the registry stays as it was. *)
Theorem close_during_attach_leaves_session
  (events : list Event) (s : Server) (ws : nat) (sid : string) (r : ReadyState) :
  socket_of s ws = {| readyState := r; bridge := Attaching sid |} ->
  forallb (concerns ws) events = true ->
  let result := run cfg JSON_parse (WsClose ws :: events) s in
  activeSessions (final result) = activeSessions s /\
  forall sid', deletions sid' (calls result) = 0%nat.
Proof.
  intros Hs Hev result. unfold result. clear result.
  assert (exists c, sockets (final (handle cfg JSON_parse (WsClose ws) s)) !! ws = Some c /\
                    readyState c = CLOSED) as (c & Hc & Hr).
  { crunch. }
  assert (activeSessions (final (handle cfg JSON_parse (WsClose ws) s)) = activeSessions s
          /\ forall sid', deletions sid' (calls (handle cfg JSON_parse (WsClose ws) s)) = 0%nat)
    as [Hsess Hdel].
  { crunch. }
  rewrite final_run_cons, calls_run_cons. rewrite <- Hsess.
  generalize dependent (final (handle cfg JSON_parse (WsClose ws) s)).
  intros s1 Hc _. clear Hs. revert s1 c Hc Hr.
  induction events as [|e events IH]; intros s1 c Hc Hr.
  - split; [done|]. intros sid'. rewrite deletions_app, Hdel. done.
  - simpl in Hev. apply andb_prop in Hev as [He Hev].
    destruct (handle_closed_concerns e s1 ws c Hc Hr He) as [Hsess1 Hdel1].
    destruct (handle_closed e s1 ws c Hc Hr) as [(c' & Hc' & Hr') _].
    destruct (IH Hev _ c' Hc' Hr') as [Hsess2 Hdel2].
    rewrite final_run_cons, calls_run_cons. split; [congruence|].
    intros sid'. specialize (Hdel2 sid'). rewrite !deletions_app in *.
    rewrite Hdel1. rewrite Hdel in *. simpl in *. done.
Qed.

End Bridges.

Lemma missing_token_rejected_witness :
  handle Sample.cfg Sample.parse (Connection 1 None 1000) Sample.issued =
  Ok tt (rejected 1 Sample.issued)
    [FxSend 1 (ErrorFrame "No token provided"); FxClose 1].
Proof.
  refine (missing_token_rejected Sample.cfg Sample.parse Sample.issued 1 None 1000 _ _).
  - vm_compute. reflexivity.
  - reflexivity.
Defined.

Lemma exec_needs_token_and_session_witness :
  exists tok now d info,
    Connection 2 (Some (Sample.token_for "web" "s1")) 2000 =
      Connection 2 (Some tok) now /\
    sockets Sample.streaming !! 2%nat = None /\
    verifyToken Sample.cfg tok now = Some d /\
    activeSessions Sample.streaming !! sessionId (claims d) = Some info /\
    containerId info = "abc123".
Proof.
  refine (exec_needs_token_and_session Sample.cfg Sample.parse
            (Connection 2 (Some (Sample.token_for "web" "s1")) 2000)
            Sample.streaming 2 "abc123" _).
  vm_compute. left. reflexivity.
Defined.

Lemma execs_only_on_granted_containers_witness :
  let ok := fun container : string => container = "abc123" in
  let events := [Sample.issue_s1;
                 Connection 1 (Some (Sample.token_for "web" "s1")) 1000;
                 ExecStarted 1;
                 Connection 2 (Some (Sample.token_for "web" "s1")) 2000] in
  registry_ok ok Sample.idle /\
  Forall (grants ok) events /\
  forall ws container,
    In (FxExec ws container)
      (calls (run Sample.cfg Sample.parse events Sample.idle)) ->
    container = "abc123".
Proof.
  intros ok events.
  assert (registry_ok ok Sample.idle) as Hidle.
  { intros sid info Hin. simpl in Hin. by rewrite lookup_empty in Hin. }
  assert (Forall (grants ok) events) as Hev.
  { repeat constructor. intros c Hc _. simpl in Hc. by injection Hc as <-. }
  split; [exact Hidle|]. split; [exact Hev|].
  exact (execs_only_on_granted_containers Sample.cfg Sample.parse ok events
           Sample.idle Hidle Hev).
Defined.

Lemma bridge_stays_bound_witness :
  exists ended',
    bridge_of (final (run Sample.cfg Sample.parse Sample.races Sample.streaming)) 1 =
      Streaming "s1" ended' /\
    (false = true -> ended' = true).
Proof.
  refine (bridge_stays_bound Sample.cfg Sample.parse Sample.races Sample.streaming
            1 "s1" false _).
  vm_compute. reflexivity.
Defined.

Lemma close_during_attach_leaves_session_witness :
  let result := run Sample.cfg Sample.parse
                  (WsClose 1 :: [ExecStarted 1; StreamEnd 1; WsError 1; WsClose 1])
                  Fixture.attaching in
  activeSessions (final result) = activeSessions Fixture.attaching /\
  forall sid', deletions sid' (calls result) = 0%nat.
Proof.
  refine (close_during_attach_leaves_session Sample.cfg Sample.parse
            [ExecStarted 1; StreamEnd 1; WsError 1; WsClose 1]
            Fixture.attaching 1 "s1" OPEN _ _).
  - vm_compute. reflexivity.
  - reflexivity.
Defined.

(** ** More on the demultiplexer *)

Lemma toString_inv (b : Buffer) (text : string) :
  toString b = text -> b = Buffer_from text.
Proof.
  intros <-. unfold toString, Buffer_from.
  by rewrite list_byte_of_string_of_list_byte.
Qed.

Lemma byte_value_of_ascii (c : ascii) :
  byte_value (byte_of_ascii c) = Z.of_N (N_of_ascii c).
Proof.
  unfold byte_value. f_equal. apply Byte.to_of_N. symmetry.
  apply byte_of_ascii_via_N.
Qed.

Lemma Buffer_from_cons (c : ascii) (text : string) :
  Buffer_from (String c text) = byte_of_ascii c :: Buffer_from text.
Proof. reflexivity. Qed.

Lemma text_all_append (f : ascii -> bool) (s t : string) :
  text_all f (String.append s t) = text_all f s && text_all f t.
Proof.
  induction s as [|c s IH]; [done|].
  rewrite append_cons. simpl. by rewrite IH, andb_assoc.
Qed.

Lemma text_all_impl (f g : ascii -> bool) (text : string) :
  (forall c, f c = true -> g c = true) ->
  text_all f text = true -> text_all g text = true.
Proof.
  intros Hfg. induction text as [|c text IH]; [done|]. simpl.
  intros [Hc Ht]%andb_prop. by rewrite (Hfg c Hc), IH.
Qed.

Lemma all_digits_text_all (d : string) : all_digits d = text_all Js.is_digit d.
Proof. induction d as [|c d IH]; [done|]. simpl. by rewrite IH. Qed.

Lemma buf_includes_text (f : ascii -> bool) (text : string) (n : Z) :
  (forall c, f c = true -> Z.of_N (N_of_ascii c) <> n) ->
  text_all f text = true ->
  buf_includes (Buffer_from text) n = false.
Proof.
  intros Hf. induction text as [|c text IH]; [done|]. rewrite Buffer_from_cons.
  simpl. intros [Hc Ht]%andb_prop. unfold buf_includes. simpl.
  fold (byte_value (byte_of_ascii c)). rewrite byte_value_of_ascii.
  destruct (Z.eqb_spec (Z.of_N (N_of_ascii c)) n) as [Heq|_]; [by apply Hf in Heq|].
  by apply IH.
Qed.

Lemma digit_is_digit_or_comma (c : ascii) :
  Js.is_digit c = true -> digit_or_comma c = true.
Proof.
  unfold Js.is_digit, digit_or_comma. cbv zeta.
  intros [H1 H2]%andb_prop. apply Z.leb_le in H1.
  apply andb_true_intro. split; [apply Z.leb_le; lia|done].
Qed.

Section Frames.

Context (JSON_parse : string -> option Js.Value).

(** X23: a frame whose text is digits, a comma, digits is always a
    resize, to as many columns as the first number says and as many rows
    as the second: none of the three filters can take it, and nothing is
    written to the process. *)
Theorem numeric_frame_always_resizes
  (ws : nat) (b : Buffer) (cols rows : string) (s : Server) :
  digits cols -> digits rows ->
  toString b = String.append cols (String "," rows) ->
  on_message JSON_parse ws b s =
  Ok tt s [FxResize ws (Js.Number (Js.Number_of rows)) (Js.Number (Js.Number_of cols))].
Proof.
  intros Hc Hr Htext. rewrite on_message_calls.
  assert (~ rule_corruption b /\ ~ rule_high_byte b /\ ~ rule_escape b)
    as (H1 & H2 & H3).
  { rewrite <- is_corruption_spec, <- is_high_byte_spec, <- hasControlSeq_spec.
    pose proof (toString_inv b _ Htext) as Hb.
    destruct Hc as [Hne Hc], Hr as [_ Hr].
    destruct cols as [|c cols]; [done|]. clear Hne Htext.
    simpl in Hc. apply andb_prop in Hc as [Hc Hcols].
    assert (Z.of_N (N_of_ascii c) <= 57) as Hle.
    { unfold Js.is_digit in Hc. cbv zeta in Hc.
      apply andb_prop in Hc as [_ Hc]. by apply Z.leb_le in Hc. }
    assert (buf_includes b 0x1b = false) as Hesc.
    { subst b. apply (buf_includes_text digit_or_comma).
      - unfold digit_or_comma. cbv zeta. intros ch [Hlow _]%andb_prop.
        apply Z.leb_le in Hlow. lia.
      - rewrite text_all_append. simpl.
        rewrite (digit_is_digit_or_comma c Hc). simpl.
        rewrite all_digits_text_all in Hcols, Hr.
        rewrite (text_all_impl _ _ cols digit_is_digit_or_comma Hcols).
        by rewrite (text_all_impl _ _ rows digit_is_digit_or_comma Hr). }
    rewrite append_cons, Buffer_from_cons in Hb. subst b.
    unfold is_corruption, is_high_byte, hasControlSeq, at_is, at_.
    rewrite Hesc. simpl. fold (byte_value (byte_of_ascii c)).
    rewrite byte_value_of_ascii.
    destruct (Z.eqb_spec (Z.of_N (N_of_ascii c)) 205); [lia|].
    destruct (Z.ltb_spec 127 (Z.of_N (N_of_ascii c))); [lia|].
    rewrite !andb_false_r. done. }
  by rewrite (demux_numeric JSON_parse b cols rows).
Qed.

(** X24: a frame that starts with the corruption signature, or is short
    and starts with a byte above 127, or holds both ESC and [ ] ], is
    dropped whole: nothing is written to the process and no resize is
    issued, whatever else the frame is. *)
Theorem noise_frames_dropped (ws : nat) (b : Buffer) (s : Server) :
  rule_corruption b \/ rule_high_byte b \/ rule_escape b ->
  on_message JSON_parse ws b s = Ok tt s [].
Proof.
  rewrite <- is_corruption_spec, <- is_high_byte_spec, <- hasControlSeq_spec.
  intros Hnoise. rewrite on_message_calls. unfold demux.
  destruct (is_corruption b); [done|].
  destruct (is_high_byte b); [done|].
  destruct (hasControlSeq b); [done|].
  by destruct Hnoise as [?|[?|?]].
Qed.

Lemma starts_with_brace (b : Buffer) :
  Js.startsWith (toString b) "{" = true ->
  is_corruption b = false /\ is_high_byte b = false /\
  Js.match_digits_comma_digits (toString b) = false.
Proof.
  unfold Js.startsWith. intros [rest Hrest]%prefix_iff.
  apply toString_inv in Hrest. rewrite append_cons, Buffer_from_cons in Hrest.
  subst b. repeat split.
  - unfold is_corruption, at_is, at_. simpl. by rewrite andb_false_r.
  - unfold is_high_byte, at_. simpl. by rewrite andb_false_r.
Qed.

(** X25: a frame that starts with [{] and does not hold both ESC and
    [ ] ] is handled by the JSON branch alone: it is a resize when that
    branch finds two truthy dimensions, and is written to the process as
    it is otherwise; in particular a parsed object whose width or height
    is 0, null, false or empty is input, not a resize. *)
Theorem brace_frame_decided_by_json_branch (ws : nat) (b : Buffer) (s : Server) :
  Js.startsWith (toString b) "{" = true ->
  ~ rule_escape b ->
  on_message JSON_parse ws b s =
    Ok tt s match json_resize JSON_parse (toString b) with
            | Some (cols, rows) => [FxResize ws rows cols]
            | None => [FxWrite ws b]
            end /\
  forall resizeData rows cols,
    JSON_parse (toString b) = Some resizeData ->
    first_of resizeData "Height" "height" "h" = Some rows ->
    first_of resizeData "Width" "width" "w" = Some cols ->
    Js.truthy rows && Js.truthy cols = false ->
    on_message JSON_parse ws b s = Ok tt s [FxWrite ws b].
Proof.
  intros Hbrace Hesc. rewrite <- hasControlSeq_spec in Hesc.
  destruct (starts_with_brace b Hbrace) as (H1 & H2 & H4).
  assert (on_message JSON_parse ws b s =
          Ok tt s match json_resize JSON_parse (toString b) with
                  | Some (cols, rows) => [FxResize ws rows cols]
                  | None => [FxWrite ws b]
                  end) as Hmsg.
  { rewrite on_message_calls. unfold demux. rewrite H1, H2, H4.
    destruct (hasControlSeq b); [done|].
    by destruct (json_resize JSON_parse (toString b)) as [[cols rows]|]. }
  split; [done|].
  intros resizeData rows cols Hparse Hrows Hcols Hfalsy. rewrite Hmsg.
  unfold json_resize. rewrite Hbrace.
  destruct (Js.includes _ "Width" || Js.includes _ "height"); [|done].
  cbn [andb mbind option_bind]. rewrite Hparse. cbn [mbind option_bind].
  rewrite Hrows. cbn [mbind option_bind]. rewrite Hcols. cbn [mbind option_bind].
  by rewrite Hfalsy.
Qed.

End Frames.

Lemma numeric_frame_always_resizes_witness :
  on_message Sample.parse 1 (Buffer_from "120,040") Sample.streaming =
  Ok tt Sample.streaming
    [FxResize 1 (Js.Number (Js.Number_of "040")) (Js.Number (Js.Number_of "120"))].
Proof.
  refine (numeric_frame_always_resizes Sample.parse 1 (Buffer_from "120,040") "120" "040"
            Sample.streaming _ _ _).
  - split; [discriminate|reflexivity].
  - split; [discriminate|reflexivity].
  - reflexivity.
Defined.

Lemma noise_frames_dropped_witness :
  on_message Sample.parse 1 [xc3; xa9] Sample.streaming = Ok tt Sample.streaming [].
Proof.
  refine (noise_frames_dropped Sample.parse 1 [xc3; xa9] Sample.streaming _).
  right; left. split; [simpl; lia|]. eexists _, _. split; [reflexivity|].
  vm_compute. reflexivity.
Defined.


Lemma brace_frame_decided_by_json_branch_witness :
  on_message Fixture.parse 1 (Buffer_from Fixture.text_zero_width) Sample.streaming =
  Ok tt Sample.streaming [FxWrite 1 (Buffer_from Fixture.text_zero_width)].
Proof.
  refine (proj2 (brace_frame_decided_by_json_branch Fixture.parse 1
                   (Buffer_from Fixture.text_zero_width) Sample.streaming _ _)
            (Js.Object [("Width", Js.Number (Js.of_Z 0)); ("Height", Sample.n24)])
            Sample.n24 Js.Undefined _ _ _ _).
  - reflexivity.
  - intros [Hesc _]. vm_compute in Hesc.
    repeat (apply elem_of_cons in Hesc as [Hesc|Hesc]; [discriminate|]).
    by apply elem_of_nil in Hesc.
  - reflexivity.
  - reflexivity.
  - reflexivity.
  - reflexivity.
Defined.
